(** * Automated math solver: validator, classifier/extractor and run scheduler

    A shallow embedding of
      - backend/utils/validators.py        (ContentValidator),
      - backend/services/math_solver.py    (MathematicalSolver),
      - backend/services/scheduler_service.py (SchedulerService),
    and the properties of the design document that these functions decide.

    Conventions.
      - A Python [str] is a list of Unicode code points ([text]).
      - The Unicode tables of the Python runtime ([str.lower], the regex
        categories \s \d \w and the case-insensitive comparison of
        re.IGNORECASE) are a parameter, the class [Unicode]; the instance
        [ascii_tables] gives them on the ASCII range and is used to run the
        model on ASCII inputs.
      - Python's [re] is modelled by a backtracking matcher with the
        engine's priorities (leftmost alternative first, greedy and lazy
        repetition).
      - Python floats are modelled by exact rationals ([Q]).
      - External collaborators (GitHub, SMTP, SymPy, the file system, the
        clock) are modelled by the answers they give. *)

From Stdlib Require Import String Ascii List Bool Arith NArith ZArith QArith Qminmax Lia.
Import ListNotations.

Close Scope Q_scope.
Set Implicit Arguments.

(* ===================================================================== *)
(** * Text *)
(* ===================================================================== *)

Module Text.

(** A code point and a Python string. *)
Definition char := N.
Definition text := list char.

(** An ASCII literal as a [text]. *)
Definition str (s : string) : text :=
  map N_of_ascii (list_ascii_of_string s).

Definition char_eqb (a b : char) : bool := N.eqb a b.

Fixpoint text_eqb (a b : text) : bool :=
  match a, b with
  | [], [] => true
  | x :: a', y :: b' => char_eqb x y && text_eqb a' b'
  | _, _ => false
  end.

(** The runtime's Unicode tables. *)
Class Unicode := {
  (** [str.lower()] *)
  str_lower : text -> text;
  (** [str.isspace()] on one character; also the regex category \s *)
  uni_isspace : char -> bool;
  (** the regex category \d *)
  uni_isdigit : char -> bool;
  (** the regex category \w *)
  uni_isword : char -> bool;
  (** re.IGNORECASE: does pattern character [p] match text character [c] *)
  uni_ci_eq : char -> char -> bool
}.

(** [prefix p s]: [s.startswith(p)], with the rest of [s]. *)
Fixpoint strip_prefix (p s : text) : option text :=
  match p, s with
  | [], _ => Some s
  | x :: p', y :: s' => if char_eqb x y then strip_prefix p' s' else None
  | _ :: _, [] => None
  end.

(** [sub in s] *)
Fixpoint contains (sub s : text) : bool :=
  match strip_prefix sub s with
  | Some _ => true
  | None => match s with
            | [] => false
            | _ :: s' => contains sub s'
            end
  end.

(** [s.count(sub)]: the number of non-overlapping occurrences, scanning from
    the left; an empty [sub] occurs [len(s) + 1] times. *)
Fixpoint count_from (fuel : nat) (sub s : text) : nat :=
  match fuel with
  | O => O
  | S fuel' =>
      match strip_prefix sub s with
      | Some rest =>
          match sub with
          | [] => match s with
                  | [] => 1
                  | _ :: s' => S (count_from fuel' sub s')
                  end
          | _ :: _ => S (count_from fuel' sub rest)
          end
      | None => match s with
                | [] => O
                | _ :: s' => count_from fuel' sub s'
                end
      end
  end.

Definition count (sub s : text) : nat := count_from (S (length s)) sub s.

(** [s.replace(old, new)]: every non-overlapping occurrence, from the left;
    an empty [old] puts [new] before every character and at the end. *)
Fixpoint replace_from (fuel : nat) (old new s : text) : text :=
  match fuel with
  | O => s
  | S fuel' =>
      match strip_prefix old s with
      | Some rest =>
          match old with
          | [] => new ++ match s with
                         | [] => []
                         | c :: s' => c :: replace_from fuel' old new s'
                         end
          | _ :: _ => new ++ replace_from fuel' old new rest
          end
      | None => match s with
                | [] => []
                | c :: s' => c :: replace_from fuel' old new s'
                end
      end
  end.

Definition replace (old new s : text) : text :=
  replace_from (S (length s)) old new s.

Section WithTables.
Context {U : Unicode}.

(** [s.lstrip()], [s.rstrip()], [s.strip()] *)
Fixpoint lstrip (s : text) : text :=
  match s with
  | c :: s' => if uni_isspace c then lstrip s' else s
  | [] => []
  end.

Definition rstrip (s : text) : text := rev (lstrip (rev s)).

Definition strip (s : text) : text := rstrip (lstrip s).

End WithTables.

(** ASCII lower-casing of one character. *)
Definition ascii_lower (c : char) : char :=
  if (65 <=? c)%N && (c <=? 90)%N then (c + 32)%N else c.

Definition ascii_isspace (c : char) : bool :=
  ((9 <=? c)%N && (c <=? 13)%N) || ((28 <=? c)%N && (c <=? 32)%N).

Definition ascii_isdigit (c : char) : bool :=
  (48 <=? c)%N && (c <=? 57)%N.

Definition ascii_isalpha (c : char) : bool :=
  ((65 <=? c)%N && (c <=? 90)%N) || ((97 <=? c)%N && (c <=? 122)%N).

Definition ascii_isword (c : char) : bool :=
  ascii_isalpha c || ascii_isdigit c || (c =? 95)%N.

(** The runtime's tables on the ASCII range (code points below 128).  Above
    it this instance leaves characters unchanged and puts them in no
    category; it stands for the runtime on ASCII inputs only. *)
#[export] Instance ascii_tables : Unicode := {
  str_lower := map ascii_lower;
  uni_isspace := ascii_isspace;
  uni_isdigit := ascii_isdigit;
  uni_isword := ascii_isword;
  uni_ci_eq := fun p c => char_eqb (ascii_lower p) (ascii_lower c)
}.

End Text.

(* ===================================================================== *)
(** * Regular expressions (Python's [re]) *)
(* ===================================================================== *)

Module Regex.
Import Text.

(** One item of a character set [[...]]. *)
Inductive citem :=
| CRange (lo hi : char)      (* a-z *)
| CChar (c : char)           (* a literal character *)
| CSpace                     (* \s *)
| CDigit                     (* \d *)
| CWord.                     (* \w *)

(** The fragment of the pattern language that the program uses. *)
Inductive regex :=
| Eps                        (* the empty pattern *)
| Any                        (* .  : any character but a newline *)
| Lit (c : char)             (* a literal character *)
| CSet (items : list citem)  (* [...] and the categories \s \d \w *)
| Cat (r1 r2 : regex)        (* r1 r2 *)
| Alt (r1 r2 : regex)        (* r1|r2, left alternative first *)
| Star (r : regex)           (* r*, greedy *)
| LazyStar (r : regex)       (* r*?, lazy *)
| Bound.                     (* \b *)

Definition Plus (r : regex) : regex := Cat r (Star r).      (* r+ *)
Definition Opt (r : regex) : regex := Alt r Eps.            (* r? *)

(** A literal word, and an alternation of several patterns. *)
Fixpoint lit (s : text) : regex :=
  match s with
  | [] => Eps
  | [c] => Lit c
  | c :: s' => Cat (Lit c) (lit s')
  end.

Fixpoint alts (rs : list regex) : regex :=
  match rs with
  | [] => Eps
  | [r] => r
  | r :: rs' => Alt r (alts rs')
  end.

Fixpoint cats (rs : list regex) : regex :=
  match rs with
  | [] => Eps
  | [r] => r
  | r :: rs' => Cat r (cats rs')
  end.

(** The characters of an ASCII literal as set items. *)
Definition chars (s : string) : list citem := map CChar (str s).

Section WithTables.
Context {U : Unicode}.

(** Does character [c] belong to a set item; [ic] is re.IGNORECASE.  (No
    pattern of the program combines a range with re.IGNORECASE.) *)
Definition item_matches (ic : bool) (it : citem) (c : char) : bool :=
  match it with
  | CRange lo hi => (lo <=? c)%N && (c <=? hi)%N
  | CChar p => if ic then uni_ci_eq p c else char_eqb p c
  | CSpace => uni_isspace c
  | CDigit => uni_isdigit c
  | CWord => uni_isword c
  end.

Definition is_word_opt (c : option char) : bool :=
  match c with
  | Some x => uni_isword x
  | None => false
  end.

(** [rmatch ic r prev s k]: match [r] at the head of [s], [prev] being the
    character before it (for \b), and hand the character before the rest and
    the rest to the continuation [k]; alternatives are tried in the engine's
    order and the first one that [k] accepts wins.  A repetition stops at an
    iteration that consumes nothing. *)
Fixpoint rmatch (ic : bool) (r : regex) (prev : option char) (s : text)
  (k : option char -> text -> option (option char * text))
  : option (option char * text) :=
  match r with
  | Eps => k prev s
  | Any =>
      match s with
      | c :: s' => if char_eqb c 10%N then None else k (Some c) s'
      | [] => None
      end
  | Lit p =>
      match s with
      | c :: s' =>
          if (if ic then uni_ci_eq p c else char_eqb p c)
          then k (Some c) s' else None
      | [] => None
      end
  | CSet items =>
      match s with
      | c :: s' =>
          if existsb (fun it => item_matches ic it c) items
          then k (Some c) s' else None
      | [] => None
      end
  | Cat r1 r2 =>
      rmatch ic r1 prev s (fun p' s' => rmatch ic r2 p' s' k)
  | Alt r1 r2 =>
      match rmatch ic r1 prev s k with
      | Some x => Some x
      | None => rmatch ic r2 prev s k
      end
  | Star r1 =>
      (fix loop (n : nat) (prev : option char) (s : text) {struct n} :=
         match n with
         | O => k prev s
         | S n' =>
             match rmatch ic r1 prev s
                     (fun p' s' =>
                        if length s' <? length s then loop n' p' s' else None)
             with
             | Some x => Some x
             | None => k prev s
             end
         end) (length s) prev s
  | LazyStar r1 =>
      (fix loop (n : nat) (prev : option char) (s : text) {struct n} :=
         match n with
         | O => k prev s
         | S n' =>
             match k prev s with
             | Some x => Some x
             | None =>
                 rmatch ic r1 prev s
                   (fun p' s' =>
                      if length s' <? length s then loop n' p' s' else None)
             end
         end) (length s) prev s
  | Bound =>
      if xorb (is_word_opt prev) (is_word_opt (hd_error s))
      then k prev s else None
  end.

(** A match of [r] that starts exactly at the head of [s]; with
    [must_advance] an empty match is refused. *)
Definition match_at (ic : bool) (r : regex) (prev : option char) (s : text)
  (must_advance : bool) : option (option char * text) :=
  rmatch ic r prev s
    (fun p' s' =>
       if must_advance && (length s' =? length s) then None
       else Some (p', s')).

(** The leftmost match at or after the head of [s]: the characters skipped,
    the characters matched, the character before the rest, the rest.
    [must_advance] constrains the first position only. *)
Fixpoint search_from (ic : bool) (r : regex) (prev : option char) (s : text)
  (must_advance : bool) : option (text * text * option char * text) :=
  match match_at ic r prev s must_advance with
  | Some (p', rest) =>
      Some ([], firstn (length s - length rest) s, p', rest)
  | None =>
      match s with
      | [] => None
      | c :: s' =>
          match search_from ic r (Some c) s' false with
          | Some (skipped, m, p', rest) => Some (c :: skipped, m, p', rest)
          | None => None
          end
      end
  end.

(** The successive non-overlapping matches, each with the text skipped
    before it, and the text left after the last one. *)
Fixpoint finditer (fuel : nat) (ic : bool) (r : regex) (prev : option char)
  (s : text) (must_advance : bool) : list (text * text) * text :=
  match fuel with
  | O => ([], s)
  | S fuel' =>
      match search_from ic r prev s must_advance with
      | None => ([], s)
      | Some (skipped, m, p', rest) =>
          let '(ms, tail) :=
            finditer fuel' ic r p' rest (match m with [] => true | _ => false end) in
          ((skipped, m) :: ms, tail)
      end
  end.

Definition iter_fuel (s : text) : nat := 2 * length s + 2.

(** [re.search(r, s) is not None] *)
Definition re_search (ic : bool) (r : regex) (s : text) : bool :=
  match search_from ic r None s false with
  | Some _ => true
  | None => false
  end.

(** [re.findall(r, s)] for a pattern whose result is the whole match (no
    group, or one group around the whole pattern). *)
Definition re_findall (ic : bool) (r : regex) (s : text) : list text :=
  map snd (fst (finditer (iter_fuel s) ic r None s false)).

(** [re.sub(r, repl, s)] for a replacement without group references. *)
Definition re_sub (ic : bool) (r : regex) (repl : text) (s : text) : text :=
  let '(ms, tail) := finditer (iter_fuel s) ic r None s false in
  flat_map (fun m => fst m ++ repl) ms ++ tail.

End WithTables.

End Regex.

(* ===================================================================== *)
(** * backend/utils/validators.py : ContentValidator *)
(* ===================================================================== *)

Module Validators.
Import Text Regex.

Local Open Scope string_scope.
Local Open Scope list_scope.

(** [x in xs] for a list of strings. *)
Definition in_strings (x : string) (xs : list string) : bool :=
  existsb (String.eqb x) xs.

(** ** The tables of [__init__] *)

Definition mathematical_keywords : list text :=
  map str
    [ (* Basic math terms *)
      "solve"; "equation"; "calculate"; "find"; "prove"; "show";
      "determine"; "compute"; "evaluate"; "simplify";
      (* Algebra *)
      "algebra"; "polynomial"; "quadratic"; "linear"; "variable";
      "coefficient"; "factor"; "expand"; "expression";
      (* Calculus *)
      "calculus"; "derivative"; "integral"; "limit"; "continuity";
      "differentiate"; "integrate"; "optimization"; "chain rule";
      (* Geometry *)
      "geometry"; "triangle"; "circle"; "angle"; "area"; "volume";
      "perimeter"; "theorem"; "proof"; "coordinate"; "vector";
      (* Trigonometry *)
      "trigonometry"; "sin"; "cos"; "tan"; "sine"; "cosine"; "tangent";
      "radian"; "degree"; "amplitude"; "period"; "frequency";
      (* Statistics and Probability *)
      "statistics"; "probability"; "mean"; "median"; "mode"; "variance";
      "standard deviation"; "distribution"; "sample"; "population";
      "correlation"; "regression"; "hypothesis";
      (* Advanced math *)
      "matrix"; "determinant"; "eigenvalue"; "eigenvector"; "linear algebra";
      "differential equation"; "partial derivative"; "series"; "sequence";
      "convergence"; "divergence"; "fourier"; "laplace" ]
  ++ (* Mathematical symbols and operations *)
     [ [8747%N]; [8721%N]; [8719%N]; [8706%N]; [8711%N]; [8710%N] ]
  ++ map str [ "lim"; "max"; "min"; "log"; "ln" ]
  ++ [ [8730%N]; [8734%N]; [8804%N]; [8805%N]; [8800%N]; [8776%N];
       [8712%N]; [8713%N]; [8834%N]; [8838%N]; [8746%N]; [8745%N] ]
  ++ map str
    [ (* Units and measurements *)
      "meter"; "centimeter"; "kilometer"; "gram"; "kilogram"; "second";
      "minute"; "hour"; "degree celsius"; "fahrenheit"; "kelvin" ].

(** Italian terms; the last letter of "probabilita" is U+00E0. *)
Definition italian_math_keywords : list text :=
  map str
    [ "risolvere"; "equazione"; "calcolare"; "trovare"; "dimostrare";
      "determinare"; "semplificare"; "algebra"; "geometria"; "calcolo";
      "derivata"; "integrale"; "limite"; "funzione"; "grafico";
      "triangolo"; "cerchio"; "angolo"; "area"; "volume"; "perimetro";
      "statistica" ]
  ++ [ str "probabilit" ++ [224%N] ]
  ++ map str
    [ "media"; "mediana"; "varianza";
      "matrice"; "determinante"; "vettore"; "polinomio"; "radice" ].

Definition all_keywords : list text :=
  mathematical_keywords ++ italian_math_keywords.

Definition forbidden_keywords : list text :=
  map str
    [ "hack"; "crack"; "exploit"; "malware"; "virus"; "password";
      "personal"; "private"; "confidential"; "secret"; "illegal";
      "violence"; "weapon"; "drug"; "adult"; "explicit" ].

Definition supported_image_types : list string :=
  [".jpg"; ".jpeg"; ".png"; ".bmp"; ".tiff"; ".gif"].
Definition supported_text_types : list string := [".txt"; ".md"; ".tex"].
Definition supported_pdf_types : list string := [".pdf"].

(** ** The patterns of [_calculate_mathematical_score] *)

Definition digits : regex := Plus (CSet [CDigit]).          (* \d+ *)
Definition spaces : regex := Star (CSet [CSpace]).          (* \s* *)

(** \b\w+\b *)
Definition word_pattern : regex := cats [Bound; Plus (CSet [CWord]); Bound].

Definition math_symbols : list regex :=
  [ (* \d+\s*[+\-*/=]\s*\d+   Basic arithmetic *)
    cats [digits; spaces; CSet (chars "+-*/="); spaces; digits];
    (* [xy]\s*[+\-]\s*\d+     Variables with numbers *)
    cats [CSet (chars "xy"); spaces; CSet (chars "+-"); spaces; digits];
    (* \b\d+x\b               Coefficient notation *)
    cats [Bound; digits; Lit 120%N; Bound];
    (* [a-z]\(\w+\)           Function notation *)
    cats [CSet [CRange 97%N 122%N]; Lit 40%N; Plus (CSet [CWord]); Lit 41%N];
    (* \b\d+/\d+\b            Fractions *)
    cats [Bound; digits; Lit 47%N; digits; Bound];
    (* \^\d+                  Exponents *)
    cats [Lit 94%N; digits];
    (* (sqrt sign)\d+         Square roots *)
    cats [Lit 8730%N; digits];
    (* the six symbols integral, sum, product, partial, nabla, increment *)
    alts [Lit 8747%N; Lit 8721%N; Lit 8719%N; Lit 8706%N; Lit 8711%N; Lit 8710%N];
    (* the set of ten operator glyphs *)
    CSet (map CChar [8804%N; 8805%N; 8800%N; 8776%N; 8712%N; 8713%N;
                     8834%N; 8838%N; 8746%N; 8745%N]) ].

(** [min(a, b)] of Python: [b] when [b < a], else [a]. *)
Definition py_min (a b : Q) : Q :=
  if Qlt_le_dec b a then b else a.

Definition Q_of_nat (n : nat) : Q := inject_Z (Z.of_nat n).

(** ** Files

    What the file system and the extraction backends answer for one path. *)
Record file_state := {
  f_exists : bool;              (* os.path.exists *)
  f_readable : bool;            (* os.access(path, os.R_OK) *)
  f_size : N;                   (* os.path.getsize, in bytes *)
  f_mime : option string;       (* mimetypes.guess_type(path)[0] *)
  f_ext : string;               (* Path(path).suffix.lower() *)
  f_text : option text;         (* the decoded text file; None: no encoding
                                   decodes it, ValueError *)
  f_ocr : option text;          (* pytesseract on the image, stripped; None:
                                   the OCR raised *)
  f_pdf : option text           (* the first ten pages, stripped; None: the
                                   PDF reader raised *)
}.

(** The reasons that go with a verdict. *)
Inductive reason :=
| R_not_found            (* "File not found: <path>" *)
| R_too_large            (* "File too large: <size>MB (max 50MB)" *)
| R_no_text              (* "Could not extract text content from file" *)
| R_file_inappropriate   (* "File contains inappropriate content" *)
| R_text_empty           (* "Empty or whitespace-only content" *)
| R_text_inappropriate   (* "Text contains inappropriate content" *)
| R_insufficient (score : Q)
                         (* "Insufficient mathematical content (score: <score>)" *)
| R_valid (score : Q)    (* "Valid mathematical content (score: <score>)" *)
| R_not_exist            (* "File does not exist" *)
| R_not_readable         (* "File is not readable" *)
| R_unsafe_mime (m : string)   (* "Unsafe MIME type: <m>" *)
| R_unsafe_ext (e : string)    (* "Unsafe file extension: <e>" *)
| R_safe.                (* "File is safe to process" *)

Section WithTables.
Context {U : Unicode}.

(** [_extract_from_image]: an OCR failure is logged and gives "". *)
Definition _extract_from_image (f : file_state) : text :=
  match f_ocr f with
  | Some t => t
  | None => []
  end.

(** [_extract_from_pdf]: a reader failure is logged and gives "". *)
Definition _extract_from_pdf (f : file_state) : text :=
  match f_pdf f with
  | Some t => t
  | None => []
  end.

(** [_extract_text_content]; [None] is Python's None. *)
Definition _extract_text_content (f : file_state) (file_ext : string)
  : option text :=
  if in_strings file_ext supported_text_types then f_text f
  else if in_strings file_ext supported_image_types
       then Some (_extract_from_image f)
  else if in_strings file_ext supported_pdf_types
       then Some (_extract_from_pdf f)
  else None.

(** [_contains_forbidden_content]: the loop over the deny-list. *)
Fixpoint forbidden_loop (keywords : list text) (text_lower : text) : bool :=
  match keywords with
  | [] => false
  | keyword :: rest =>
      if contains keyword text_lower then true
      else forbidden_loop rest text_lower
  end.

Definition _contains_forbidden_content (t : text) : bool :=
  let text_lower := str_lower t in
  forbidden_loop forbidden_keywords text_lower.

(** The first loop of [_calculate_mathematical_score]. *)
Fixpoint keyword_loop (keywords : list text) (text_lower : text)
  (math_word_count : Q) : Q :=
  match keywords with
  | [] => math_word_count
  | keyword :: rest =>
      if contains keyword text_lower then
        let weight := (Q_of_nat (length keyword) / 10 + 1)%Q in
        keyword_loop rest text_lower
          (math_word_count + Q_of_nat (count keyword text_lower) * weight)%Q
      else keyword_loop rest text_lower math_word_count
  end.

(** The second loop. *)
Fixpoint symbol_loop (patterns : list regex) (t : text) (symbol_count : nat)
  : nat :=
  match patterns with
  | [] => symbol_count
  | pattern :: rest =>
      let matches := re_findall false pattern t in
      symbol_loop rest t (symbol_count + length matches * 2)
  end.

Definition _calculate_mathematical_score (t : text) : Q :=
  match t with
  | [] => 0%Q
  | _ :: _ =>
      let text_lower := str_lower t in
      let words := re_findall false word_pattern text_lower in
      match words with
      | [] => 0%Q
      | _ :: _ =>
          let math_word_count := keyword_loop all_keywords text_lower 0%Q in
          let symbol_count := symbol_loop math_symbols t 0 in
          let total_score := (math_word_count + Q_of_nat symbol_count)%Q in
          let max_possible_score := (Q_of_nat (length words) * (1 # 2))%Q in
          if Qlt_le_dec 0 max_possible_score
          then py_min (total_score / max_possible_score)%Q 1%Q
          else 0%Q
      end
  end.

(** The test [math_score < 0.1]. *)
Definition below_threshold (score : Q) : bool :=
  if Qlt_le_dec score (1 # 10) then true else false.

(** [validate_mathematical_content(file_path)]. *)
Definition validate_mathematical_content (f : file_state) : bool * reason :=
  if negb (f_exists f) then (false, R_not_found)
  else if (50 * 1024 * 1024 <? f_size f)%N then (false, R_too_large)
  else
    match _extract_text_content f (f_ext f) with
    | None => (false, R_no_text)
    | Some [] => (false, R_no_text)
    | Some text_content =>
        if _contains_forbidden_content text_content
        then (false, R_file_inappropriate)
        else
          let math_score := _calculate_mathematical_score text_content in
          if below_threshold math_score
          then (false, R_insufficient math_score)
          else (true, R_valid math_score)
    end.

(** [validate_mathematical_content_text(text)], which math_solver.py adds to
    the class. *)
Definition validate_mathematical_content_text (t : text) : bool * reason :=
  match t, strip t with
  | [], _ | _, [] => (false, R_text_empty)
  | _, _ =>
      if _contains_forbidden_content t
      then (false, R_text_inappropriate)
      else
        let math_score := _calculate_mathematical_score t in
        if below_threshold math_score
        then (false, R_insufficient math_score)
        else (true, R_valid math_score)
  end.

Definition safe_mime_types : list string :=
  ["text/plain"; "text/markdown"; "application/pdf";
   "image/jpeg"; "image/png"; "image/bmp"; "image/tiff"].

(** The test [mime_type and mime_type not in safe_mime_types]: the type that
    fails it. *)
Definition unsafe_mime (mime_type : option string) : option string :=
  match mime_type with
  | None => None
  | Some m =>
      if String.eqb m "" then None
      else if in_strings m safe_mime_types then None
      else Some m
  end.

(** [validate_file_safety(file_path)]. *)
Definition validate_file_safety (f : file_state) : bool * reason :=
  if negb (f_exists f) then (false, R_not_exist)
  else if negb (f_readable f) then (false, R_not_readable)
  else
    match unsafe_mime (f_mime f) with
    | Some mime_type => (false, R_unsafe_mime mime_type)
    | None =>
        let file_ext := f_ext f in
        let safe_extensions :=
          supported_image_types ++ supported_text_types
            ++ supported_pdf_types in
        if negb (in_strings file_ext safe_extensions)
        then (false, R_unsafe_ext file_ext)
        else (true, R_safe)
    end.

End WithTables.

End Validators.

(* ===================================================================== *)
(** * backend/services/math_solver.py : MathematicalSolver *)
(* ===================================================================== *)

Module MathSolver.
Import Text Regex Validators.

Local Open Scope string_scope.
Local Open Scope list_scope.

(** The problem types: the keys of [problem_patterns], "general", and the
    "unknown" of [_create_error_result]. *)
Inductive problem_type :=
| equation | derivative | integral | limit | matrix
| simplify | graph | optimization | general | unknown.

(** What a [_solve_*] method returns: the keys 'success', 'solution',
    'steps' and 'error', with the defaults that [solve_problem] reads them
    with.  (The LaTeX, numerical and graph entries are left out.) *)
Record solver_answer := {
  a_success : bool;
  a_solution : string;
  a_steps : list string;
  a_error : string
}.

(** The methods that go through SymPy. *)
Class SymPy := {
  _solve_equation : list text -> text -> solver_answer;
  _solve_derivative : list text -> text -> solver_answer;
  _solve_integral : list text -> text -> solver_answer;
  _solve_simplify : list text -> text -> solver_answer;
  _solve_general : list text -> text -> solver_answer
}.

(** What [solve_problem] returns.  (The timing entries 'processing_time' and
    'timestamp' and the LaTeX, numerical and graph entries are left out;
    [None] is an absent key.) *)
Record solution_result := {
  sr_success : bool;
  sr_problem_type : problem_type;
  sr_original_text : text;
  sr_cleaned_text : option text;
  sr_expressions : option (list text);
  sr_solution : string;
  sr_steps : list string;
  sr_error_message : string;
  sr_file_name : string
}.

Definition common_symbols : list text :=
  map str ["x"; "y"; "z"; "t"; "a"; "b"; "c"; "n"; "k"; "m"].

Definition words (ws : list string) : regex := alts (map (fun w => lit (str w)) ws).

(** [problem_patterns], in the order of the dictionary. *)
Definition problem_patterns : list (problem_type * regex) :=
  [ (* (?:solve|find|calculate)\s+.*?[=] *)
    (equation,
     cats [words ["solve"; "find"; "calculate"]; Plus (CSet [CSpace]);
           LazyStar Any; CSet (chars "=")]);
    (* (?:derivative|differentiate|d/dx|(partial)/(partial)) *)
    (derivative,
     alts [lit (str "derivative"); lit (str "differentiate"); lit (str "d/dx");
           lit [8706%N; 47%N; 8706%N]]);
    (* (?:integral|integrate|(integral sign)) *)
    (integral, alts [lit (str "integral"); lit (str "integrate"); Lit 8747%N]);
    (* (?:limit|lim|approaches) *)
    (limit, words ["limit"; "lim"; "approaches"]);
    (* (?:matrix|determinant|eigenvalue|system) *)
    (matrix, words ["matrix"; "determinant"; "eigenvalue"; "system"]);
    (* (?:simplify|reduce|factor) *)
    (simplify, words ["simplify"; "reduce"; "factor"]);
    (* (?:graph|plot|sketch) *)
    (graph, words ["graph"; "plot"; "sketch"]);
    (* (?:maximum|minimum|optimize|extrema) *)
    (optimization, words ["maximum"; "minimum"; "optimize"; "extrema"]) ].

(** The replacements of [_preprocess_text], in the order of the dictionary. *)
Definition replacements : list (text * text) :=
  [ ([215%N], str "*"); ([247%N], str "/"); ([178%N], str "^2");
    ([179%N], str "^3"); ([8730%N], str "sqrt"); ([8734%N], str "oo");
    ([8804%N], str "<="); ([8805%N], str ">="); ([8800%N], str "!=");
    ([177%N], str "+/-"); ([960%N], str "pi"); ([945%N], str "alpha");
    ([946%N], str "beta"); ([947%N], str "gamma"); ([952%N], str "theta");
    ([955%N], str "lambda"); ([956%N], str "mu"); ([963%N], str "sigma");
    ([916%N], str "Delta"); ([8706%N], str "d") ].

Definition letter : list citem := [CRange 97%N 122%N; CRange 65%N 90%N].
Definition alnum : list citem := letter ++ [CRange 48%N 57%N].

(** \b(solve|find|calculate|determine|compute|evaluate|simplify)\b *)
Definition instruction_pattern : regex :=
  cats [Bound;
        words ["solve"; "find"; "calculate"; "determine"; "compute";
               "evaluate"; "simplify"];
        Bound].

(** One group around  [a-zA-Z][a-zA-Z0-9+\-*/^()\s]*=[\s]*[a-zA-Z0-9+\-*/^()\s]*  *)
Definition equation_pattern : regex :=
  cats [CSet letter;
        Star (CSet (alnum ++ chars "+-*/^()" ++ [CSpace]));
        Lit 61%N;
        Star (CSet [CSpace]);
        Star (CSet (alnum ++ chars "+-*/^()" ++ [CSpace]))].

(** The [patterns] of [_extract_expressions]. *)
Definition fallback_patterns : list regex :=
  [ (* \([a-zA-Z0-9+\-*/^().\s]+\)\([a-zA-Z0-9+\-*/^().\s]+\)   Products *)
    cats [Lit 40%N; Plus (CSet (alnum ++ chars "+-*/^()." ++ [CSpace]));
          Lit 41%N; Lit 40%N;
          Plus (CSet (alnum ++ chars "+-*/^()." ++ [CSpace])); Lit 41%N];
    (* [a-zA-Z0-9+\-*/^().\s]+(?:\^[0-9]+)?    General expressions *)
    cats [Plus (CSet (alnum ++ chars "+-*/^()." ++ [CSpace]));
          Opt (Cat (Lit 94%N) (Plus (CSet [CRange 48%N 57%N])))];
    (* \b\d+[a-zA-Z]\b                          Coefficient notation *)
    cats [Bound; Plus (CSet [CDigit]); CSet letter; Bound];
    (* [a-zA-Z]\([a-zA-Z0-9+\-*/^(),\s]+\)      Function notation *)
    cats [CSet letter; Lit 40%N;
          Plus (CSet (alnum ++ chars "+-*/^()," ++ [CSpace])); Lit 41%N] ].

Section WithTables.
Context {U : Unicode} {E : SymPy}.

(** [_is_mathematical_problem] *)
Definition _is_mathematical_problem (t : text) : bool :=
  fst (validate_mathematical_content_text t).

(** The loop over [replacements]. *)
Fixpoint replace_loop (table : list (text * text)) (t : text) : text :=
  match table with
  | [] => t
  | (old, new) :: rest => replace_loop rest (replace old new t)
  end.

(** [_preprocess_text] *)
Definition _preprocess_text (t : text) : text :=
  let t1 := re_sub false (Plus (CSet [CSpace])) (str " ") (strip t) in
  replace_loop replacements t1.

(** The loop over [problem_patterns]: the first pattern found in the text. *)
Fixpoint pattern_loop (patterns : list (problem_type * regex))
  (text_lower : text) : option problem_type :=
  match patterns with
  | [] => None
  | (pt, pattern) :: rest =>
      if re_search true pattern text_lower then Some pt
      else pattern_loop rest text_lower
  end.

(** [_identify_problem_type] *)
Definition _identify_problem_type (t : text) : problem_type :=
  let text_lower := str_lower t in
  match pattern_loop problem_patterns text_lower with
  | Some pt => pt
  | None =>
      if contains (str "=") t
         && existsb (fun var => contains var t) common_symbols
      then equation
      else if existsb (fun op => contains op t)
                (map str ["+"; "-"; "*"; "/"; "^"])
      then simplify
      else general
  end.

(** [for match in matches: cleaned = match.strip(); if len(cleaned) > 2:
    expressions.append(cleaned)] *)
Fixpoint append_matches (matches : list text) (expressions : list text)
  : list text :=
  match matches with
  | [] => expressions
  | m :: rest =>
      let cleaned := strip m in
      if (2 <? length cleaned)%nat
      then append_matches rest (expressions ++ [cleaned])
      else append_matches rest expressions
  end.

(** [for pattern in patterns: matches = re.findall(pattern, cleaned_text);
    ...] *)
Fixpoint fallback_loop (patterns : list regex) (cleaned_text : text)
  (expressions : list text) : list text :=
  match patterns with
  | [] => expressions
  | pattern :: rest =>
      let matches := re_findall false pattern cleaned_text in
      fallback_loop rest cleaned_text (append_matches matches expressions)
  end.

Definition mem (e : text) (seen : list text) : bool :=
  existsb (text_eqb e) seen.

(** The last loop: duplicates removed, order kept. *)
Fixpoint unique_loop (expressions : list text) (seen : list text)
  (unique_expressions : list text) : list text :=
  match expressions with
  | [] => unique_expressions
  | expr :: rest =>
      if mem expr seen then unique_loop rest seen unique_expressions
      else unique_loop rest (expr :: seen) (unique_expressions ++ [expr])
  end.

(** The text that the patterns are run on. *)
Definition instructions_removed (t : text) : text :=
  strip (re_sub true instruction_pattern [] t).

(** [_extract_expressions] *)
Definition _extract_expressions (t : text) : list text :=
  let cleaned_text := instructions_removed t in
  let equation_matches := re_findall false equation_pattern cleaned_text in
  let expressions := append_matches equation_matches [] in
  let expressions :=
    match expressions with
    | [] => fallback_loop fallback_patterns cleaned_text expressions
    | _ :: _ => expressions
    end in
  unique_loop expressions [] [].

(** The placeholders. *)
Definition _solve_limit (expressions : list text) (context : text)
  : solver_answer :=
  {| a_success := false; a_solution := ""; a_steps := [];
     a_error := "Limit solving not yet implemented" |}.

Definition _solve_matrix (expressions : list text) (context : text)
  : solver_answer :=
  {| a_success := false; a_solution := ""; a_steps := [];
     a_error := "Matrix solving not yet implemented" |}.

Definition _solve_optimization (expressions : list text) (context : text)
  : solver_answer :=
  {| a_success := false; a_solution := ""; a_steps := [];
     a_error := "Optimization solving not yet implemented" |}.

(** [_solve_by_type]; none of the methods raises, each one catches its own
    exceptions. *)
Definition _solve_by_type (pt : problem_type) (expressions : list text)
  (context : text) : solver_answer :=
  match pt with
  | equation => _solve_equation expressions context
  | derivative => _solve_derivative expressions context
  | integral => _solve_integral expressions context
  | limit => _solve_limit expressions context
  | matrix => _solve_matrix expressions context
  | simplify => _solve_simplify expressions context
  | optimization => _solve_optimization expressions context
  | _ => _solve_general expressions context
  end.

(** [_create_error_result] *)
Definition _create_error_result (error_message : string)
  (original_text : text) (file_name : string) : solution_result :=
  {| sr_success := false;
     sr_problem_type := unknown;
     sr_original_text := original_text;
     sr_cleaned_text := None;
     sr_expressions := None;
     sr_solution := "";
     sr_steps := [];
     sr_error_message := error_message;
     sr_file_name := file_name |}.

(** [solve_problem] *)
Definition solve_problem (problem_text : text) (file_name : string)
  : solution_result :=
  if negb (_is_mathematical_problem problem_text) then
    _create_error_result
      "Content does not appear to be a mathematical problem"
      problem_text file_name
  else
    let cleaned_text := _preprocess_text problem_text in
    let pt := _identify_problem_type cleaned_text in
    let expressions := _extract_expressions cleaned_text in
    match expressions with
    | [] =>
        _create_error_result
          "Could not extract mathematical expressions from the problem"
          problem_text file_name
    | _ :: _ =>
        let answer := _solve_by_type pt expressions cleaned_text in
        {| sr_success := a_success answer;
           sr_problem_type := pt;
           sr_original_text := problem_text;
           sr_cleaned_text := Some cleaned_text;
           sr_expressions := Some expressions;
           sr_solution := a_solution answer;
           sr_steps := a_steps answer;
           sr_error_message := a_error answer;
           sr_file_name := file_name |}
    end.

End WithTables.

End MathSolver.

(* ===================================================================== *)
(** * backend/services/scheduler_service.py : SchedulerService *)
(* ===================================================================== *)

Module Scheduler.
Import Text Validators MathSolver.

Local Open Scope string_scope.
Local Open Scope list_scope.

(** A call that returns or raises [Exception(e)]. *)
Inductive outcome (A : Type) :=
| Ret (a : A)
| Raise (e : string).
Arguments Ret {A} a.
Arguments Raise {A} e.

Definition time := N.

(** The dictionary that discovery gives for a file; the key 'name' is read
    with [file_info['name']] and with [file_info.get('name', 'unknown')]. *)
Record file_info := {
  fi_name : option string;
  fi_path : string
}.

(** What the collaborators answer while one item is processed. *)
Record item_world := {
  w_download : bool;        (* github_service.download_file: it catches every
                               exception and returns False *)
  w_file : file_state;      (* the downloaded temporary file *)
  w_upload : outcome bool;  (* github_service.upload_solution: True, False
                               (a GithubException, caught there), or an
                               exception of another class *)
  w_main_page : bool;       (* github_service.update_main_page: it catches
                               every exception and returns False *)
  w_email : bool            (* email_service.send_solution_notification: it
                               returns False when it is not configured or
                               fails *)
}.

(** The 'error' entry of an item's result. *)
Inductive item_error :=
| E_download                (* 'Failed to download file from GitHub' *)
| E_safety (r : reason)     (* 'File safety validation failed: <r>' *)
| E_math (r : reason)       (* 'Mathematical content validation failed: <r>' *)
| E_no_text                 (* 'Could not extract text content from file' *)
| E_solve (msg : string)    (* the solver's error_message *)
| E_upload                  (* 'Failed to upload solution to GitHub' *)
| E_processing (e : string) (* 'Processing error: <e>' *)
| E_raised (e : string).    (* str(e), in the handler of the loop *)

(** [solution_info] (its 'solution_url' and 'processing_time' depend on the
    clock and are left out). *)
Record solution_info := {
  si_problem_name : string;
  si_status : string
}.

(** The result of one item; [None] is an absent key. *)
Record item_result := {
  r_success : bool;
  r_file_name : string;
  r_error : option item_error;
  r_solution_attempt : option solution_result;
  r_solution_data : option solution_result;
  r_solution_result : option solution_result;
  r_solution_info : option solution_info;
  r_message : option string
}.

Definition failed (file_name : string) (e : item_error) : item_result :=
  {| r_success := false; r_file_name := file_name; r_error := Some e;
     r_solution_attempt := None; r_solution_data := None;
     r_solution_result := None; r_solution_info := None;
     r_message := None |}.

(** [self.stats] *)
Record stats := {
  total_runs : nat;
  successful_runs : nat;
  failed_runs : nat;
  problems_solved : nat;
  problems_failed : nat;
  last_run : option time;
  last_success : option time;
  last_error : option string
}.

(** A registered callback, and what callbacks are called with. *)
Definition callback := nat.

Inductive payload :=
| P_file (fi : file_info)
| P_result (r : item_result).

(** One call of a callback: the event, the callback, its argument. *)
Definition call := (string * callback * payload)%type.

(** The service: its statistics, [self.callbacks] and the calls made. *)
Record state := {
  st_stats : stats;
  st_callbacks : list (string * list callback);
  st_calls : list call
}.

Definition initial_stats : stats :=
  {| total_runs := 0; successful_runs := 0; failed_runs := 0;
     problems_solved := 0; problems_failed := 0;
     last_run := None; last_success := None; last_error := None |}.

(** [__init__] *)
Definition initial_state : state :=
  {| st_stats := initial_stats;
     st_callbacks := [("on_new_problem", []); ("on_solution_complete", []);
                      ("on_error", [])];
     st_calls := [] |}.

Definition with_stats (f : stats -> stats) (st : state) : state :=
  {| st_stats := f (st_stats st);
     st_callbacks := st_callbacks st;
     st_calls := st_calls st |}.

(** [self.callbacks.get(event_type, [])] *)
Fixpoint callbacks_get (cbs : list (string * list callback))
  (event_type : string) : list callback :=
  match cbs with
  | [] => []
  | (k, v) :: rest =>
      if String.eqb k event_type then v else callbacks_get rest event_type
  end.

Fixpoint callbacks_set (cbs : list (string * list callback))
  (event_type : string) (v : list callback) : list (string * list callback) :=
  match cbs with
  | [] => []
  | (k, v0) :: rest =>
      if String.eqb k event_type then (k, v) :: rest
      else (k, v0) :: callbacks_set rest event_type v
  end.

(** [add_callback]: an unknown event type is logged and changes nothing. *)
Definition add_callback (event_type : string) (cb : callback) (st : state)
  : state :=
  if existsb (fun kv => String.eqb (fst kv) event_type) (st_callbacks st)
  then {| st_stats := st_stats st;
          st_callbacks :=
            callbacks_set (st_callbacks st) event_type
              (callbacks_get (st_callbacks st) event_type ++ [cb]);
          st_calls := st_calls st |}
  else st.

(** [_trigger_callbacks]: every callback of the event is called; what a
    callback raises is caught and logged. *)
Definition _trigger_callbacks (event_type : string) (data : payload)
  (st : state) : state :=
  {| st_stats := st_stats st;
     st_callbacks := st_callbacks st;
     st_calls :=
       st_calls st
       ++ map (fun cb => (event_type, cb, data))
            (callbacks_get (st_callbacks st) event_type) |}.

(** The updates of [self.stats]. *)
Definition start_run (run_start_time : time) (s : stats) : stats :=
  {| total_runs := total_runs s + 1;
     successful_runs := successful_runs s;
     failed_runs := failed_runs s;
     problems_solved := problems_solved s;
     problems_failed := problems_failed s;
     last_run := Some run_start_time;
     last_success := last_success s;
     last_error := last_error s |}.

Definition count_solved (s : stats) : stats :=
  {| total_runs := total_runs s;
     successful_runs := successful_runs s;
     failed_runs := failed_runs s;
     problems_solved := problems_solved s + 1;
     problems_failed := problems_failed s;
     last_run := last_run s;
     last_success := last_success s;
     last_error := last_error s |}.

Definition count_failed (s : stats) : stats :=
  {| total_runs := total_runs s;
     successful_runs := successful_runs s;
     failed_runs := failed_runs s;
     problems_solved := problems_solved s;
     problems_failed := problems_failed s + 1;
     last_run := last_run s;
     last_success := last_success s;
     last_error := last_error s |}.

Definition run_succeeded (run_start_time : time) (s : stats) : stats :=
  {| total_runs := total_runs s;
     successful_runs := successful_runs s + 1;
     failed_runs := failed_runs s;
     problems_solved := problems_solved s;
     problems_failed := problems_failed s;
     last_run := last_run s;
     last_success := Some run_start_time;
     last_error := last_error s |}.

Definition run_failed (s : stats) : stats :=
  {| total_runs := total_runs s;
     successful_runs := successful_runs s;
     failed_runs := failed_runs s + 1;
     problems_solved := problems_solved s;
     problems_failed := problems_failed s;
     last_run := last_run s;
     last_success := last_success s;
     last_error := last_error s |}.

Definition run_raised (e : string) (s : stats) : stats :=
  {| total_runs := total_runs s;
     successful_runs := successful_runs s;
     failed_runs := failed_runs s + 1;
     problems_solved := problems_solved s;
     problems_failed := problems_failed s;
     last_run := last_run s;
     last_success := last_success s;
     last_error := Some e |}.

(** What [check_and_process_new_problems] returns ('processing_time' is left
    out; [None] is an absent key). *)
Record summary := {
  s_success : bool;
  s_new_files : nat;
  s_processed : nat;
  s_errors : nat;
  s_message : option string;
  s_error : option string;
  s_results : option (list item_result)
}.

Section WithTables.
Context {U : Unicode} {E : SymPy}.

(** [_extract_text_from_file] *)
Definition _extract_text_from_file (f : file_state) : option text :=
  _extract_text_content f (f_ext f).

(** [process_single_problem].  [file_info['name']] is read before the [try]
    and raises KeyError when the key is absent. *)
Definition process_single_problem (st : state) (fi : file_info)
  (w : item_world) : outcome item_result * state :=
  match fi_name fi with
  | None => (Raise "'name'", st)
  | Some file_name =>
      let st := _trigger_callbacks "on_new_problem" (P_file fi) st in
      let download_success := w_download w in
      if negb download_success then (Ret (failed file_name E_download), st)
      else
        let '(is_safe, safety_reason) := validate_file_safety (w_file w) in
        if negb is_safe
        then (Ret (failed file_name (E_safety safety_reason)), st)
        else
          let '(is_math, math_reason) :=
            validate_mathematical_content (w_file w) in
          if negb is_math
          then (Ret (failed file_name (E_math math_reason)), st)
          else
            match _extract_text_from_file (w_file w) with
            | None | Some [] => (Ret (failed file_name E_no_text), st)
            | Some text_content =>
                let solution_result := solve_problem text_content file_name in
                if negb (sr_success solution_result) then
                  (Ret {| r_success := false;
                          r_file_name := file_name;
                          r_error :=
                            Some (E_solve (sr_error_message solution_result));
                          r_solution_attempt := Some solution_result;
                          r_solution_data := None;
                          r_solution_result := None;
                          r_solution_info := None;
                          r_message := None |}, st)
                else
                  match w_upload w with
                  | Raise e => (Ret (failed file_name (E_processing e)), st)
                  | Ret false =>
                      (Ret {| r_success := false;
                              r_file_name := file_name;
                              r_error := Some E_upload;
                              r_solution_attempt := None;
                              r_solution_data := Some solution_result;
                              r_solution_result := None;
                              r_solution_info := None;
                              r_message := None |}, st)
                  | Ret true =>
                      let solution_info :=
                        {| si_problem_name := file_name;
                           si_status := "Solved Successfully" |} in
                      (* the values of these two calls are not used *)
                      let _main_page_updated := w_main_page w in
                      let _notification_sent := w_email w in
                      (Ret {| r_success := true;
                              r_file_name := file_name;
                              r_error := None;
                              r_solution_attempt := None;
                              r_solution_data := None;
                              r_solution_result := Some solution_result;
                              r_solution_info := Some solution_info;
                              r_message :=
                                Some "Problem solved and solution uploaded successfully" |},
                       st)
                  end
            end
  end.

(** The loop [for file_info in new_files] with its counters. *)
Fixpoint process_loop (new_files : list (file_info * item_world))
  (st : state) (processed_count error_count : nat)
  (results : list item_result)
  : state * nat * nat * list item_result :=
  match new_files with
  | [] => (st, processed_count, error_count, results)
  | (fi, w) :: rest =>
      match process_single_problem st fi w with
      | (Ret result, st) =>
          let results := results ++ [result] in
          if r_success result then
            let st := with_stats count_solved st in
            let st :=
              _trigger_callbacks "on_solution_complete" (P_result result) st in
            process_loop rest st (processed_count + 1) error_count results
          else
            let st := with_stats count_failed st in
            let st := _trigger_callbacks "on_error" (P_result result) st in
            process_loop rest st processed_count (error_count + 1) results
      | (Raise e, st) =>
          let st := with_stats count_failed st in
          let error_result :=
            failed (match fi_name fi with
                    | Some name => name
                    | None => "unknown"
                    end) (E_raised e) in
          let results := results ++ [error_result] in
          let st := _trigger_callbacks "on_error" (P_result error_result) st in
          process_loop rest st processed_count (error_count + 1) results
      end
  end.

(** [check_and_process_new_problems]: [run_start_time] is the clock at the
    start and [discovery] what [github_service.get_new_files_since()] does,
    each file with the answers of the collaborators for it. *)
Definition check_and_process_new_problems (st : state)
  (run_start_time : time)
  (discovery : outcome (list (file_info * item_world)))
  : summary * state :=
  let st := with_stats (start_run run_start_time) st in
  match discovery with
  | Raise e =>
      let st := with_stats (run_raised e) st in
      ({| s_success := false; s_new_files := 0; s_processed := 0;
          s_errors := 1; s_message := None; s_error := Some e;
          s_results := None |}, st)
  | Ret [] =>
      ({| s_success := true; s_new_files := 0; s_processed := 0;
          s_errors := 0; s_message := Some "No new files to process";
          s_error := None; s_results := None |}, st)
  | Ret ((_ :: _) as new_files) =>
      let '(st, processed_count, error_count, results) :=
        process_loop new_files st 0 0 [] in
      let st :=
        if (error_count =? 0)%nat
        then with_stats (run_succeeded run_start_time) st
        else with_stats run_failed st in
      ({| s_success := true; s_new_files := length new_files;
          s_processed := processed_count; s_errors := error_count;
          s_message := None; s_error := None;
          s_results := Some results |}, st)
  end.

(** [manual_trigger] *)
Definition manual_trigger (st : state) (now : time)
  (discovery : outcome (list (file_info * item_world)))
  : summary * state :=
  check_and_process_new_problems st now discovery.

End WithTables.

(** ** Runs in flight

    [start_scheduler] registers [check_and_process_new_problems] as a job
    of the background scheduler with [max_instances=1] and [coalesce=True]
    and then calls it once itself; [manual_trigger] calls it in the thread
    of its caller.  The control state counts the runs in flight of both
    kinds. *)
Record control := {
  is_running : bool;           (* self.is_running *)
  scheduled_active : nat;      (* instances of the job that are executing *)
  direct_active : nat          (* executions called directly *)
}.

Inductive action :=
| StartScheduler     (* start_scheduler() *)
| StopScheduler      (* stop_scheduler() *)
| Tick               (* the interval trigger fires *)
| ManualTrigger      (* manual_trigger() *)
| ScheduledRunEnds   (* an instance of the job returns *)
| DirectRunEnds.     (* a direct execution returns *)

Definition max_instances : nat := 1.

Definition initial_control : control :=
  {| is_running := false; scheduled_active := 0; direct_active := 0 |}.

(** One action.  The scheduler skips a tick when the job already has
    [max_instances] executing instances; [shutdown(wait=True)] returns once
    no instance executes. *)
Definition step (a : action) (c : control) : control :=
  match a with
  | StartScheduler =>
      if is_running c then c
      else {| is_running := true;
              scheduled_active := scheduled_active c;
              direct_active := direct_active c + 1 |}
  | StopScheduler =>
      if is_running c && (scheduled_active c =? 0)%nat
      then {| is_running := false;
              scheduled_active := scheduled_active c;
              direct_active := direct_active c |}
      else c
  | Tick =>
      if is_running c && (scheduled_active c <? max_instances)%nat
      then {| is_running := is_running c;
              scheduled_active := scheduled_active c + 1;
              direct_active := direct_active c |}
      else c
  | ManualTrigger =>
      {| is_running := is_running c;
         scheduled_active := scheduled_active c;
         direct_active := direct_active c + 1 |}
  | ScheduledRunEnds =>
      {| is_running := is_running c;
         scheduled_active := scheduled_active c - 1;
         direct_active := direct_active c |}
  | DirectRunEnds =>
      {| is_running := is_running c;
         scheduled_active := scheduled_active c;
         direct_active := direct_active c - 1 |}
  end.

Definition steps (actions : list action) (c : control) : control :=
  fold_left (fun c a => step a c) actions c.

(** The run bodies that execute at one moment. *)
Definition active_runs (c : control) : nat :=
  scheduled_active c + direct_active c.

End Scheduler.

(* ===================================================================== *)
(** * backend/services/github_service.py : discovery *)
(* ===================================================================== *)

Module GitHub.
Import Text Scheduler.

(** A file of a commit, as the API gives it. *)
Record commit_file := {
  cf_filename : text;       (* file.filename *)
  cf_status : text;         (* file.status *)
  cf_additions : nat;       (* file.additions *)
  cf_deletions : nat        (* file.deletions *)
}.

Record commit := {
  c_sha : text;             (* commit.sha *)
  c_date : time;            (* commit.commit.author.date *)
  c_files : list commit_file
}.

(** The entries of the configuration that discovery reads. *)
Record settings := {
  repo_name : text;                (* config['github']['repository'] *)
  upload_folder : text;            (* config['github']['upload_folder'] *)
  supported_formats : list text    (* config['math_solver']['supported_formats'] *)
}.

(** The dictionary that discovery builds for a file. *)
Record new_file := {
  nf_path : text;
  nf_name : text;
  nf_sha : text;
  nf_commit_date : time;
  nf_size : nat;
  nf_download_url : text
}.

(** [p in xs] for a list of texts. *)
Definition in_texts (p : text) (xs : list text) : bool :=
  existsb (text_eqb p) xs.

(** [os.path.basename(p)]: what follows the last '/'. *)
Fixpoint basename (p : text) : text :=
  match p with
  | [] => []
  | c :: p' =>
      if existsb (char_eqb 47%N) p' then basename p'
      else if char_eqb c 47%N then p' else c :: p'
  end.

(** [s.startswith(prefix)] *)
Definition startswith (s prefix : text) : bool :=
  match strip_prefix prefix s with
  | Some _ => true
  | None => false
  end.

Section WithSuffix.

(** [Path(file_path).suffix.lower()] *)
Variable suffix_lower : text -> text.

(** [_is_supported_format] *)
Definition _is_supported_format (cfg : settings) (file_path : text) : bool :=
  in_texts (suffix_lower file_path) (supported_formats cfg).

(** [_get_download_url] *)
Definition _get_download_url (cfg : settings) (file_path : text) : text :=
  str "https://api.github.com/repos/" ++ repo_name cfg
  ++ str "/contents/" ++ file_path.

(** The loop [for file in commit.files]. *)
Fixpoint files_loop (cfg : settings) (c : commit) (files : list commit_file)
  (new_files : list new_file) : list new_file :=
  match files with
  | [] => new_files
  | file :: rest =>
      let file_path := cf_filename file in
      if startswith file_path (upload_folder cfg ++ str "/") then
        if in_texts (cf_status file) [str "added"; str "modified"] then
          if _is_supported_format cfg file_path then
            let file_info :=
              {| nf_path := file_path;
                 nf_name := basename file_path;
                 nf_sha := c_sha c;
                 nf_commit_date := c_date c;
                 nf_size := cf_additions file + cf_deletions file;
                 nf_download_url := _get_download_url cfg file_path |} in
            files_loop cfg c rest (new_files ++ [file_info])
          else files_loop cfg c rest new_files
        else files_loop cfg c rest new_files
      else files_loop cfg c rest new_files
  end.

(** The loop [for commit in commits]. *)
Fixpoint commits_loop (cfg : settings) (commits : list commit)
  (new_files : list new_file) : list new_file :=
  match commits with
  | [] => new_files
  | c :: rest => commits_loop cfg rest (files_loop cfg c (c_files c) new_files)
  end.

(** [get_new_files_since(since_time)].  [last_check_time] is the attribute
    of the service, [now_start] and [now_end] the clock when the time to
    look from is chosen and when the list is complete, and [api since] what
    listing the commits of the branch since [since] gives, with their
    files.  What the API raises is raised again. *)
Definition get_new_files_since (cfg : settings)
  (last_check_time : option time) (since_time : option time)
  (now_start now_end : time) (api : time -> outcome (list commit))
  : outcome (list new_file) * option time :=
  let since :=
    match since_time with
    | Some s => s
    | None => match last_check_time with
              | Some l => l
              | None => now_start
              end
    end in
  match api since with
  | Raise e => (Raise e, last_check_time)
  | Ret commits =>
      let new_files := commits_loop cfg commits [] in
      (Ret new_files, Some now_end)
  end.

End WithSuffix.

(** The suffix of the last component of a plain path, in lower case, for
    ASCII names: what follows and includes the last dot of the name, when
    that dot is neither its first nor its last character. *)
Fixpoint from_last_dot (name : text) : option text :=
  match name with
  | [] => None
  | c :: name' =>
      match from_last_dot name' with
      | Some s => Some s
      | None => if char_eqb c 46%N then Some (c :: name') else None
      end
  end.

Definition ascii_suffix_lower (file_path : text) : text :=
  let name := basename file_path in
  match name with
  | [] => []
  | c :: name' =>
      match from_last_dot name' with
      | Some (d :: e :: s) => map ascii_lower (d :: e :: s)
      | _ => []
      end
  end.

End GitHub.

(* ===================================================================== *)
(** * backend/utils/config_manager.py : ConfigManager *)
(* ===================================================================== *)

Module Config.

Local Open Scope string_scope.
Local Open Scope list_scope.

(** What [yaml.safe_load] gives: None, a boolean, a number (an integer or
    a finite float), a string, a list or a dictionary with string keys, in
    the order of insertion. *)
#[local] Unset Elimination Schemes.
Inductive value :=
| VNone
| VBool (b : bool)
| VNum (q : Q)
| VStr (s : string)
| VList (l : list value)
| VDict (d : list (string * value)).
#[local] Set Elimination Schemes.

(** The exceptions. *)
Inductive exn :=
| ValueError (msg : string)
| KeyError (key : string)
| TypeError
| AttributeError
| UnboundLocalError
| OtherError (msg : string).   (* FileNotFoundError, yaml.YAMLError, OSError *)

Inductive result (A : Type) :=
| Ok (a : A)
| Err (e : exn).
Arguments Ok {A} a.
Arguments Err {A} e.

Definition bind {A B : Type} (r : result A) (k : A -> result B) : result B :=
  match r with
  | Ok a => k a
  | Err e => Err e
  end.

Notation "x <- r ;; k" := (bind r (fun x => k))
  (at level 61, r at next level, right associativity).

(** [s in t] for strings. *)
Fixpoint is_prefix (p s : string) : bool :=
  match p, s with
  | EmptyString, _ => true
  | String a p', String b s' => Ascii.eqb a b && is_prefix p' s'
  | String _ _, EmptyString => false
  end.

Fixpoint is_substring (p s : string) : bool :=
  is_prefix p s
  || match s with
     | EmptyString => false
     | String _ s' => is_substring p s'
     end.

(** The truth value of a value. *)
Definition truthy (v : value) : bool :=
  match v with
  | VNone => false
  | VBool b => b
  | VNum q => negb (Qeq_bool q 0)
  | VStr s => negb (String.eqb s "")
  | VList l => match l with [] => false | _ :: _ => true end
  | VDict d => match d with [] => false | _ :: _ => true end
  end.

(** Lookup and update in a dictionary. *)
Fixpoint dict_get (d : list (string * value)) (k : string) : option value :=
  match d with
  | [] => None
  | (k', v) :: rest => if String.eqb k' k then Some v else dict_get rest k
  end.

Fixpoint dict_set (d : list (string * value)) (k : string) (v : value)
  : list (string * value) :=
  match d with
  | [] => [(k, v)]
  | (k', v') :: rest =>
      if String.eqb k' k then (k', v) :: rest
      else (k', v') :: dict_set rest k v
  end.

(** [k in container], for a string [k]. *)
Definition py_in (k : string) (container : value) : result bool :=
  match container with
  | VDict d => Ok (match dict_get d k with Some _ => true | None => false end)
  | VList l =>
      Ok (existsb (fun v => match v with
                            | VStr s => String.eqb s k
                            | _ => false
                            end) l)
  | VStr s => Ok (is_substring k s)
  | _ => Err TypeError
  end.

(** [container[k]], for a string [k]. *)
Definition getitem (container : value) (k : string) : result value :=
  match container with
  | VDict d => match dict_get d k with
               | Some v => Ok v
               | None => Err (KeyError k)
               end
  | _ => Err TypeError
  end.

(** [container[k] = v], for a string [k]. *)
Definition setitem (container : value) (k : string) (v : value)
  : result value :=
  match container with
  | VDict d => Ok (VDict (dict_set d k v))
  | _ => Err TypeError
  end.

(** [d.get(k, default)] *)
Definition py_get (d : value) (k : string) (default : value) : result value :=
  match d with
  | VDict d => Ok (match dict_get d k with
                   | Some v => v
                   | None => default
                   end)
  | _ => Err AttributeError
  end.

(** [v <= 0] *)
Definition le_zero (v : value) : result bool :=
  match v with
  | VNum q => Ok (if Qlt_le_dec 0 q then false else true)
  | VBool b => Ok (negb b)
  | _ => Err TypeError
  end.

Definition required_sections : list string :=
  ["github"; "scheduler"; "email"; "math_solver"; "logging"; "security"].

Definition required_github_keys : list string :=
  ["repository"; "branch"; "upload_folder"; "solutions_folder"].

(** [for section in required_sections: if section not in self.config:
    raise ValueError(...)] *)
Fixpoint sections_loop (sections : list string) (config : value)
  : result unit :=
  match sections with
  | [] => Ok tt
  | section :: rest =>
      present <- py_in section config ;;
      if negb present
      then Err (ValueError ("Required configuration section missing: "
                            ++ section))
      else sections_loop rest config
  end.

(** [for key in required_github_keys: if not github_config.get(key):
    raise ValueError(...)] *)
Fixpoint github_keys_loop (keys : list string) (github_config : value)
  : result unit :=
  match keys with
  | [] => Ok tt
  | key :: rest =>
      v <- py_get github_config key VNone ;;
      if negb (truthy v)
      then Err (ValueError ("Required GitHub configuration missing: " ++ key))
      else github_keys_loop rest github_config
  end.

(** [_validate_config] *)
Definition _validate_config (config : value) : result unit :=
  _ <- sections_loop required_sections config ;;
  github_config <- getitem config "github" ;;
  _ <- github_keys_loop required_github_keys github_config ;;
  scheduler_config <- getitem config "scheduler" ;;
  interval <- py_get scheduler_config "check_interval_minutes" (VNum 0) ;;
  bad <- le_zero interval ;;
  if bad then Err (ValueError "Scheduler check interval must be positive")
  else
    email_config <- getitem config "email" ;;
    _smtp_server <- py_get email_config "smtp_server" VNone ;;
    math_config <- getitem config "math_solver" ;;
    formats <- py_get math_config "supported_formats" VNone ;;
    if negb (truthy formats)
    then Err (ValueError "No supported file formats specified")
    else
      security_config <- getitem config "security" ;;
      max_size <- py_get security_config "max_file_size_mb" (VNum 0) ;;
      bad <- le_zero max_size ;;
      if bad then Err (ValueError "Maximum file size must be positive")
      else Ok tt.





(** [v.copy()]: dictionaries and lists have it. *)
Definition copy (v : value) : result value :=
  match v with
  | VDict d => Ok (VDict d)
  | VList l => Ok (VList l)
  | _ => Err AttributeError
  end.

(** [config[section][key] = v] *)
Definition set_in_section (config : value) (section key : string) (v : value)
  : result value :=
  section_config <- getitem config section ;;
  section_config' <- setitem section_config key v ;;
  setitem config section section_config'.

(** [s.lower()], as far as the comparison with 'true' goes: the capitals of
    ASCII are the only characters whose lower case is an ASCII letter of
    that word. *)
Definition lower_char (a : ascii) : ascii :=
  let n := nat_of_ascii a in
  if (65 <=? n)%nat && (n <=? 90)%nat then ascii_of_nat (n + 32) else a.

Fixpoint lower (s : string) : string :=
  match s with
  | EmptyString => EmptyString
  | String a s' => String (lower_char a) (lower s')
  end.

(** The truth value of what [os.getenv] gives. *)
Definition env_truthy (o : option string) : bool :=
  match o with
  | Some s => negb (String.eqb s "")
  | None => false
  end.

Definition env_value (o : option string) : value :=
  match o with
  | Some s => VStr s
  | None => VNone
  end.

(** [if 'flask' not in config: config['flask'] = {}] *)
Definition flask_section (config : value) : result value :=
  present <- py_in "flask" config ;;
  if negb present then setitem config "flask" (VDict []) else Ok config.

(** [_apply_env_overrides(config)], with [getenv] for [os.getenv]. *)
Definition _apply_env_overrides (getenv : string -> option string)
  (config : value) : result value :=
  let github_token := getenv "GITHUB_TOKEN" in
  config <- (if env_truthy github_token
             then set_in_section config "github" "token"
                    (env_value github_token)
             else Ok config) ;;
  let email_sender := getenv "EMAIL_SENDER" in
  config <- (if env_truthy email_sender
             then set_in_section config "email" "sender_email"
                    (env_value email_sender)
             else Ok config) ;;
  let email_password := getenv "EMAIL_PASSWORD" in
  config <- (if env_truthy email_password
             then set_in_section config "email" "sender_password"
                    (env_value email_password)
             else Ok config) ;;
  let flask_env := getenv "FLASK_ENV" in
  config <- (if env_truthy flask_env
             then config <- flask_section config ;;
                  set_in_section config "flask" "environment"
                    (env_value flask_env)
             else Ok config) ;;
  let flask_debug :=
    String.eqb (lower (match getenv "FLASK_DEBUG" with
                       | Some s => s
                       | None => ""
                       end)) "true" in
  config <- (if flask_debug
             then config <- flask_section config ;;
                  set_in_section config "flask" "debug" (VBool flask_debug)
             else Ok config) ;;
  Ok config.




(** [get_section(section)] *)
Definition get_section (config : value) (section : string) : result value :=
  present <- py_in section config ;;
  if negb present
  then Err (KeyError ("Configuration section not found: " ++ section))
  else
    section_config <- getitem config section ;;
    copy section_config.

(** [get_log_config()]; [mkdir] makes the directory of the log file. *)
Definition get_log_config (config : value) (mkdir : value -> result unit)
  : result value :=
  log_config <- get_section config "logging" ;;
  log_file <- py_get log_config "log_file" (VStr "logs/math_solver.log") ;;
  _ <- mkdir log_file ;;
  level <- py_get log_config "level" (VStr "INFO") ;;
  rotation <- py_get log_config "max_file_size" (VStr "10MB") ;;
  retention <- py_get log_config "backup_count" (VNum 5) ;;
  Ok (VDict
        [ ("level", level);
          ("file", log_file);
          ("rotation", rotation);
          ("retention", retention);
          ("format", VStr "{time:YYYY-MM-DD HH:mm:ss} | {level} | {name}:{function}:{line} | {message}") ]).

End Config.

(* ===================================================================== *)
(** * Properties *)
(* ===================================================================== *)

From Stdlib Require Import Lqa.
Import Text Regex Validators MathSolver Scheduler.

Local Open Scope string_scope.
Local Open Scope list_scope.

(** ** The relevance score *)

Lemma Q_of_nat_nonneg (n : nat) : (0 <= Q_of_nat n)%Q.
Proof. unfold Q_of_nat, Qle; simpl. lia. Qed.

Lemma weight_nonneg (n : nat) : (0 <= Q_of_nat n / 10 + 1)%Q.
Proof.
  assert (H : (0 <= Q_of_nat n / 10)%Q).
  { apply Qmult_le_0_compat; [apply Q_of_nat_nonneg | discriminate]. }
  lra.
Qed.

Lemma keyword_loop_nonneg (ks : list text) (tl : text) (acc : Q) :
  (0 <= acc)%Q -> (0 <= keyword_loop ks tl acc)%Q.
Proof.
  revert acc. induction ks as [|k ks IH]; intros acc Hacc; simpl; [exact Hacc|].
  destruct (contains k tl); [|apply IH; exact Hacc].
  apply IH.
  pose proof (Qmult_le_0_compat _ _ (Q_of_nat_nonneg (count k tl))
                (weight_nonneg (length k))).
  lra.
Qed.

Lemma py_min_unit (x : Q) :
  (0 <= x)%Q -> (0 <= py_min x 1)%Q /\ (py_min x 1 <= 1)%Q.
Proof.
  intros Hx. unfold py_min. destruct (Qlt_le_dec 1 x); split; lra.
Qed.

Lemma score_bounds {U : Unicode} (t : text) :
  (0 <= _calculate_mathematical_score t)%Q
  /\ (_calculate_mathematical_score t <= 1)%Q.
Proof.
  unfold _calculate_mathematical_score.
  destruct t as [|c t]; [split; lra|].
  destruct (re_findall false word_pattern (str_lower (c :: t))) as [|w ws];
    [split; lra|].
  destruct (Qlt_le_dec 0 (Q_of_nat (length (w :: ws)) * (1 # 2))) as [Hpos|Hle];
    [|split; lra].
  apply py_min_unit.
  apply Qle_shift_div_l; [exact Hpos|].
  pose proof (keyword_loop_nonneg all_keywords (str_lower (c :: t)) (Qle_refl 0)).
  pose proof (Q_of_nat_nonneg (symbol_loop math_symbols (c :: t) 0)).
  lra.
Qed.

(** C7.  For every text the relevance score lies in [0, 1]; the score of the
    empty text is 0, and so is the score of every text in which the word
    pattern finds no word. *)
Theorem score_in_unit_interval :
  forall (U : Unicode) (t : text),
    (0 <= _calculate_mathematical_score t)%Q
    /\ (_calculate_mathematical_score t <= 1)%Q
    /\ _calculate_mathematical_score [] = 0%Q
    /\ (re_findall false word_pattern (str_lower t) = [] ->
        _calculate_mathematical_score t = 0%Q).
Proof.
  intros U t. destruct (score_bounds t) as [H0 H1].
  repeat split; try assumption.
  intros Hw. unfold _calculate_mathematical_score.
  destruct t; [reflexivity|]. rewrite Hw. reflexivity.
Qed.

Lemma score_in_unit_interval_witness :
  let t := str "?!" in
  re_findall false word_pattern (str_lower t) = []
  /\ _calculate_mathematical_score t = 0%Q
  /\ (_calculate_mathematical_score (str "Solve x^2 - 4 = 0") <= 1)%Q.
Proof.
  split; [vm_compute; reflexivity|]. split.
  - apply (score_in_unit_interval ascii_tables (str "?!")).
    vm_compute; reflexivity.
  - apply (score_in_unit_interval ascii_tables (str "Solve x^2 - 4 = 0")).
Defined.

(** ** The forbidden-content check *)

Lemma forbidden_loop_spec (ks : list text) (tl : text) :
  forbidden_loop ks tl = true <->
  exists k, In k ks /\ contains k tl = true.
Proof.
  induction ks as [|k ks IH]; simpl.
  - split; [discriminate | intros [k [[] _]]].
  - destruct (contains k tl) eqn:Hk.
    + split; [intros _; exists k; auto | reflexivity].
    + rewrite IH. split.
      * intros [k' [Hin Hc]]. exists k'; auto.
      * intros [k' [[Heq|Hin] Hc]]; [subst; congruence | exists k'; auto].
Qed.

(** C8.  The forbidden-content check flags a text exactly when the
    lower-cased text contains a keyword of the deny-list, and a flagged text
    is rejected by validation, of the text and of a file with that text,
    whatever its score. *)
Theorem forbidden_check_rejects :
  forall (U : Unicode) (t : text),
    (_contains_forbidden_content t = true <->
       exists k, In k forbidden_keywords /\ contains k (str_lower t) = true)
    /\ (_contains_forbidden_content t = true ->
        fst (validate_mathematical_content_text t) = false
        /\ forall f : file_state,
             _extract_text_content f (f_ext f) = Some t ->
             fst (validate_mathematical_content f) = false).
Proof.
  intros U t. split.
  - unfold _contains_forbidden_content. apply forbidden_loop_spec.
  - intros Hf. split.
    + unfold validate_mathematical_content_text.
      destruct t; [reflexivity|]. destruct (strip (c :: t)); [reflexivity|].
      rewrite Hf. reflexivity.
    + intros f Hx. unfold validate_mathematical_content.
      destruct (negb (f_exists f)); [reflexivity|].
      destruct (50 * 1024 * 1024 <? f_size f)%N; [reflexivity|].
      rewrite Hx. destruct t; [reflexivity|]. rewrite Hf. reflexivity.
Qed.

(** The text of the scenario is flagged, in any case of its letters, and a
    text of score 1 with a forbidden word is rejected. *)
Lemma forbidden_check_rejects_witness :
  _contains_forbidden_content (str "How to hack into systems") = true
  /\ _contains_forbidden_content (str "How to HACK into Systems") = true
  /\ (_calculate_mathematical_score (str "hack: solve 2x + 3 = 7") == 1)%Q
  /\ fst (validate_mathematical_content_text (str "hack: solve 2x + 3 = 7"))
     = false.
Proof.
  split; [vm_compute; reflexivity|].
  split; [vm_compute; reflexivity|].
  split; [vm_compute; reflexivity|].
  apply (forbidden_check_rejects ascii_tables (str "hack: solve 2x + 3 = 7")).
  vm_compute; reflexivity.
Defined.

(** ** Classification *)

Definition hit {U : Unicode} (t : text) (q : problem_type * regex) : bool :=
  re_search true (snd q) (str_lower t).

Lemma pattern_loop_first {U : Unicode} (t : text)
  (pre : list (problem_type * regex)) (q : problem_type * regex)
  (post : list (problem_type * regex)) :
  forallb (fun p => negb (hit t p)) pre = true ->
  hit t q = true ->
  pattern_loop (pre ++ q :: post) (str_lower t) = Some (fst q).
Proof.
  induction pre as [|[pt p] pre IH]; simpl; intros Hpre Hq.
  - destruct q as [pt p]. unfold hit in Hq; simpl in Hq. rewrite Hq. reflexivity.
  - apply andb_true_iff in Hpre. destruct Hpre as [Hp Hpre].
    unfold hit in Hp; simpl in Hp. apply negb_true_iff in Hp. rewrite Hp.
    apply IH; assumption.
Qed.

Lemma pattern_loop_none {U : Unicode} (t : text)
  (ps : list (problem_type * regex)) :
  forallb (fun p => negb (hit t p)) ps = true ->
  pattern_loop ps (str_lower t) = None.
Proof.
  induction ps as [|[pt p] ps IH]; simpl; intros Hps; [reflexivity|].
  apply andb_true_iff in Hps. destruct Hps as [Hp Hps].
  unfold hit in Hp; simpl in Hp. apply negb_true_iff in Hp. rewrite Hp.
  apply IH; assumption.
Qed.

(** C6.  The categories are tried in the order equation, derivative,
    integral, limit, matrix, simplify, graph, optimization and the first one
    whose pattern is found in the lower-cased text is returned, whatever
    later patterns are found too; when none is found the result is equation
    for a text with an '=' and one of the variable letters, else simplify
    for a text with one of + - * / ^, else general. *)
Theorem classification_priority :
  forall (U : Unicode) (t : text),
    map fst problem_patterns =
      [equation; derivative; integral; limit; matrix; simplify; graph;
       optimization]
    /\ (forall pre q post,
          problem_patterns = pre ++ q :: post ->
          forallb (fun p => negb (hit t p)) pre = true ->
          hit t q = true ->
          _identify_problem_type t = fst q)
    /\ (forallb (fun p => negb (hit t p)) problem_patterns = true ->
        _identify_problem_type t =
          if contains (str "=") t
             && existsb (fun var => contains var t) common_symbols
          then equation
          else if existsb (fun op => contains op t)
                    (map str ["+"; "-"; "*"; "/"; "^"])
          then simplify
          else general).
Proof.
  intros U t. split; [reflexivity|]. split.
  - intros pre q post Heq Hpre Hq. unfold _identify_problem_type.
    rewrite Heq. rewrite (pattern_loop_first t pre q post Hpre Hq). reflexivity.
  - intros Hnone. unfold _identify_problem_type.
    rewrite (pattern_loop_none t problem_patterns Hnone). reflexivity.
Qed.

(** Texts with the cues of equation and derivative in both orders, and
    texts without any cue. *)
Lemma classification_priority_witness :
  _identify_problem_type (str "find the derivative of y = x^2") = equation
  /\ _identify_problem_type (str "the derivative: find y = x^2") = equation
  /\ _identify_problem_type (str "integrate to the limit") = integral
  /\ _identify_problem_type (str "to the limit, integrate") = integral
  /\ _identify_problem_type (str "2 + 2") = simplify
  /\ _identify_problem_type (str "hello") = general.
Proof.
  pose proof (classification_priority ascii_tables) as H.
  refine (conj _ (conj _ (conj _ (conj _ (conj _ _))))).
  - destruct (H (str "find the derivative of y = x^2")) as [_ [H1 _]].
    apply (H1 [] (hd (equation, Eps) problem_patterns) (tl problem_patterns));
      vm_compute; reflexivity.
  - destruct (H (str "the derivative: find y = x^2")) as [_ [H1 _]].
    apply (H1 [] (hd (equation, Eps) problem_patterns) (tl problem_patterns));
      vm_compute; reflexivity.
  - destruct (H (str "integrate to the limit")) as [_ [H1 _]].
    apply (H1 (firstn 2 problem_patterns)
              (nth 2 problem_patterns (equation, Eps))
              (skipn 3 problem_patterns));
      vm_compute; reflexivity.
  - destruct (H (str "to the limit, integrate")) as [_ [H1 _]].
    apply (H1 (firstn 2 problem_patterns)
              (nth 2 problem_patterns (equation, Eps))
              (skipn 3 problem_patterns));
      vm_compute; reflexivity.
  - destruct (H (str "2 + 2")) as [_ [_ H2]].
    rewrite H2; vm_compute; reflexivity.
  - destruct (H (str "hello")) as [_ [_ H2]].
    rewrite H2; vm_compute; reflexivity.
Defined.

(** ** Extraction of expressions *)

(** The candidates of one pattern: its matches, stripped, longer than two
    characters. *)
Definition candidates {U : Unicode} (pattern : regex) (cleaned_text : text)
  : list text :=
  filter (fun c => (2 <? length c)%nat)
    (map strip (re_findall false pattern cleaned_text)).

(** The first occurrence of every element that is not in [seen]. *)
Fixpoint first_occurrences (es : list text) (seen : list text) : list text :=
  match es with
  | [] => []
  | e :: rest =>
      if mem e seen then first_occurrences rest seen
      else e :: first_occurrences rest (e :: seen)
  end.

(** The fallback chain as the specification words it: the patterns in
    order, and the chain stops at the first pattern that yields a candidate. *)
Fixpoint spec_fallback_chain {U : Unicode} (patterns : list regex)
  (cleaned_text : text) : list text :=
  match patterns with
  | [] => []
  | pattern :: rest =>
      match candidates pattern cleaned_text with
      | [] => spec_fallback_chain rest cleaned_text
      | c :: cs => c :: cs
      end
  end.

Definition spec_extract_expressions {U : Unicode} (t : text) : list text :=
  let cleaned_text := instructions_removed t in
  match candidates equation_pattern cleaned_text with
  | [] => first_occurrences (spec_fallback_chain fallback_patterns cleaned_text) []
  | c :: cs => first_occurrences (c :: cs) []
  end.

Lemma text_eqb_eq (a b : text) : text_eqb a b = true <-> a = b.
Proof.
  revert b. induction a as [|x a IH]; intros [|y b]; simpl;
    try (split; [discriminate | discriminate]); [tauto|].
  rewrite andb_true_iff, IH. unfold char_eqb. rewrite N.eqb_eq.
  split; [intros [-> ->]; reflexivity | intros H; inversion H; auto].
Qed.

Lemma mem_In (e : text) (seen : list text) : mem e seen = true <-> In e seen.
Proof.
  unfold mem. rewrite existsb_exists. split.
  - intros [x [Hin Heq]]. apply text_eqb_eq in Heq. subst. exact Hin.
  - intros Hin. exists e. split; [exact Hin | apply text_eqb_eq; reflexivity].
Qed.

Lemma append_matches_spec {U : Unicode} (ms : list text) (acc : list text) :
  append_matches ms acc =
  acc ++ filter (fun c => (2 <? length c)%nat) (map strip ms).
Proof.
  revert acc. induction ms as [|m ms IH]; intros acc; simpl.
  - rewrite app_nil_r. reflexivity.
  - destruct (2 <? length (strip m))%nat; rewrite IH.
    + rewrite <- app_assoc. reflexivity.
    + reflexivity.
Qed.

Lemma fallback_loop_spec {U : Unicode} (ps : list regex) (ct : text)
  (acc : list text) :
  fallback_loop ps ct acc = acc ++ flat_map (fun p => candidates p ct) ps.
Proof.
  revert acc. induction ps as [|p ps IH]; intros acc; simpl.
  - rewrite app_nil_r. reflexivity.
  - rewrite IH, append_matches_spec, <- app_assoc. reflexivity.
Qed.

Lemma unique_loop_spec (es seen acc : list text) :
  unique_loop es seen acc = acc ++ first_occurrences es seen.
Proof.
  revert seen acc. induction es as [|e es IH]; intros seen acc; simpl.
  - rewrite app_nil_r. reflexivity.
  - destruct (mem e seen); rewrite IH; [reflexivity|].
    rewrite <- app_assoc. reflexivity.
Qed.

Lemma first_occurrences_In (es seen : list text) (e : text) :
  In e (first_occurrences es seen) <-> In e es /\ ~ In e seen.
Proof.
  revert seen. induction es as [|x es IH]; intros seen; simpl; [tauto|].
  destruct (mem x seen) eqn:Hm.
  - apply mem_In in Hm. rewrite IH. split.
    + intros [H1 H2]. auto.
    + intros [[Hx|H1] H2]; [subst; contradiction | auto].
  - assert (Hx : ~ In x seen).
    { intros Hin. apply mem_In in Hin. congruence. }
    simpl. rewrite IH. simpl. split.
    + intros [Heq|[H1 H2]]; [subst; auto | split; [auto|]].
      intros Hin. apply H2. right. exact Hin.
    + intros [[Heq|H1] H2]; [left; exact Heq|].
      destruct (list_eq_dec N.eq_dec x e) as [Heq|Hne]; [left; exact Heq|].
      right. split; [exact H1|]. intros [Hxe|Hin]; contradiction.
Qed.

(** C2, as the code has it.  When the equation pattern gives no candidate,
    each of the four fallback patterns is applied, in their order, and the
    candidates of all of them are kept: the result is the list of the
    candidates of the four patterns, one pattern after the other, without
    the repetitions.  Nothing stops the chain at the first pattern that
    gives a candidate. *)
Theorem fallback_applies_every_pattern :
  forall (U : Unicode) (t : text),
    candidates equation_pattern (instructions_removed t) = [] ->
    _extract_expressions t =
      first_occurrences
        (flat_map (fun p => candidates p (instructions_removed t))
           fallback_patterns) []
    /\ (forall e : text,
          In e (_extract_expressions t) <->
          exists p, In p fallback_patterns
                    /\ In e (candidates p (instructions_removed t))).
Proof.
  intros U t Heq.
  assert (Hx : _extract_expressions t =
               first_occurrences
                 (flat_map (fun p => candidates p (instructions_removed t))
                    fallback_patterns) []).
  { unfold _extract_expressions. cbv zeta.
    rewrite unique_loop_spec, append_matches_spec, !app_nil_l.
    unfold candidates in Heq. rewrite Heq. cbv iota.
    rewrite fallback_loop_spec, app_nil_l. reflexivity. }
  split; [exact Hx|].
  intros e. rewrite Hx, first_occurrences_In, in_flat_map. simpl. tauto.
Qed.

Lemma fallback_applies_every_pattern_witness :
  candidates equation_pattern (instructions_removed (str "(a+b)(a-b) 12x")) = []
  /\ In (str "12x") (_extract_expressions (str "(a+b)(a-b) 12x")).
Proof.
  split; [vm_compute; reflexivity|].
  apply (fallback_applies_every_pattern ascii_tables (str "(a+b)(a-b) 12x"));
    [vm_compute; reflexivity|].
  exists (nth 2 fallback_patterns Eps).
  split; vm_compute; auto.
Defined.

(** C2, as the specification words it, fails: in "(a+b)(a-b) 12x" there is
    no equation, the first fallback pattern gives the candidate
    "(a+b)(a-b)", and the second and the third pattern still add theirs. *)
Lemma fallback_chain_does_not_stop :
  candidates equation_pattern (instructions_removed (str "(a+b)(a-b) 12x")) = []
  /\ candidates (nth 0 fallback_patterns Eps)
       (instructions_removed (str "(a+b)(a-b) 12x")) = [str "(a+b)(a-b)"]
  /\ spec_extract_expressions (str "(a+b)(a-b) 12x") = [str "(a+b)(a-b)"]
  /\ _extract_expressions (str "(a+b)(a-b) 12x") =
       [str "(a+b)(a-b)"; str "(a+b)(a-b) 12x"; str "12x"]
  /\ _extract_expressions (str "(a+b)(a-b) 12x")
     <> spec_extract_expressions (str "(a+b)(a-b) 12x").
Proof.
  split; [vm_compute; reflexivity|].
  split; [vm_compute; reflexivity|].
  split; [vm_compute; reflexivity|].
  split; [vm_compute; reflexivity|].
  intros H. vm_compute in H. discriminate H.
Qed.

(** ** The placeholders of the solver *)

(** C9.  A problem of type limit, matrix or optimization gets the answer of
    a placeholder: no success and the error "... not yet implemented"; so
    [solve_problem] never succeeds on a text that it classifies as one of
    the three, and when it comes to the solving step its error message is
    the placeholder's. *)
Theorem placeholders_never_succeed :
  forall (U : Unicode) (E : SymPy) (problem_text : text) (file_name : string)
         (expressions : list text) (context : text),
    let pt := _identify_problem_type (_preprocess_text problem_text) in
    let result := solve_problem problem_text file_name in
    pt = limit \/ pt = matrix \/ pt = optimization ->
    a_success (_solve_by_type pt expressions context) = false
    /\ a_error (_solve_by_type pt expressions context) =
         match pt with
         | limit => "Limit solving not yet implemented"
         | matrix => "Matrix solving not yet implemented"
         | _ => "Optimization solving not yet implemented"
         end
    /\ sr_success result = false
    /\ (sr_problem_type result = pt ->
        sr_error_message result = a_error (_solve_by_type pt expressions context)).
Proof.
  intros U E problem_text file_name expressions context pt result Hpt.
  assert (Hs : forall es c,
             a_success (_solve_by_type pt es c) = false
             /\ a_error (_solve_by_type pt es c) =
                  match pt with
                  | limit => "Limit solving not yet implemented"
                  | matrix => "Matrix solving not yet implemented"
                  | _ => "Optimization solving not yet implemented"
                  end).
  { intros es c. destruct Hpt as [-> | [-> | ->]]; split; reflexivity. }
  split; [apply Hs|]. split; [apply Hs|].
  subst result. unfold solve_problem. fold pt.
  destruct (negb (_is_mathematical_problem problem_text)).
  - split; [reflexivity|]. simpl. intros Hu.
    destruct Hpt as [H | [H | H]]; rewrite H in Hu; discriminate Hu.
  - destruct (_extract_expressions (_preprocess_text problem_text)) as [|e es].
    + split; [reflexivity|]. simpl. intros Hu.
      destruct Hpt as [H | [H | H]]; rewrite H in Hu; discriminate Hu.
    + simpl. split; [apply Hs|]. intros _.
      destruct (Hs (e :: es) (_preprocess_text problem_text)) as [_ ->].
      destruct (Hs expressions context) as [_ ->]. reflexivity.
Qed.

(** ** Runs of the model *)

(** A SymPy whose five methods solve whatever they are given. *)
Definition solved_answer : solver_answer :=
  {| a_success := true; a_solution := "solved"; a_steps := ["step"];
     a_error := "" |}.

Definition sympy_solves : SymPy :=
  {| _solve_equation := fun _ _ => solved_answer;
     _solve_derivative := fun _ _ => solved_answer;
     _solve_integral := fun _ _ => solved_answer;
     _solve_simplify := fun _ _ => solved_answer;
     _solve_general := fun _ _ => solved_answer |}.

(** A readable text file with the given content. *)
Definition text_file (content : text) : file_state :=
  {| f_exists := true; f_readable := true;
     f_size := N.of_nat (length content);
     f_mime := Some "text/plain"; f_ext := ".txt";
     f_text := Some content; f_ocr := None; f_pdf := None |}.

(** A readable file of a type that is not allowed. *)
Definition exe_file : file_state :=
  {| f_exists := true; f_readable := true; f_size := 4096%N;
     f_mime := None; f_ext := ".exe";
     f_text := None; f_ocr := None; f_pdf := None |}.

Definition named (name : string) : file_info :=
  {| fi_name := Some name; fi_path := "uploads/" ++ name |}.

(** The collaborators at their best: download and upload succeed, the page
    is updated, the mail is sent. *)
Definition all_well (f : file_state) : item_world :=
  {| w_download := true; w_file := f; w_upload := Ret true;
     w_main_page := true; w_email := true |}.

(** A service with one callback for each event. *)
Definition observed_state : state :=
  add_callback "on_error" 3
    (add_callback "on_solution_complete" 2
       (add_callback "on_new_problem" 1 initial_state)).

Lemma placeholders_never_succeed_witness :
  let r := solve_problem (E := sympy_solves)
             (str "limit of x^2 + 1 as x approaches 2") "p.txt" in
  sr_problem_type r = limit
  /\ sr_success r = false
  /\ sr_error_message r = "Limit solving not yet implemented".
Proof.
  destruct (placeholders_never_succeed ascii_tables sympy_solves
              (str "limit of x^2 + 1 as x approaches 2") "p.txt" [] [])
    as [_ [He [Hs Hm]]].
  - left. vm_compute. reflexivity.
  - split; [vm_compute; reflexivity|]. split; [exact Hs|].
    rewrite Hm; [|vm_compute; reflexivity]. rewrite He.
    vm_compute. reflexivity.
Defined.

(** ** One item *)

(** The calls of the callbacks of [event] with [data]. *)
Definition calls_for (cbs : list (string * list callback)) (event : string)
  (data : payload) : list call :=
  map (fun cb => (event, cb, data)) (callbacks_get cbs event).

(** What becomes of an item, whatever the state of the service. *)
Definition item_outcome {U : Unicode} {E : SymPy}
  (item : file_info * item_world) : outcome item_result :=
  fst (process_single_problem initial_state (fst item) (snd item)).

(** The result that the loop records for an item. *)
Definition result_of {U : Unicode} {E : SymPy}
  (item : file_info * item_world) : item_result :=
  match item_outcome item with
  | Ret result => result
  | Raise e =>
      failed (match fi_name (fst item) with
              | Some name => name
              | None => "unknown"
              end) (E_raised e)
  end.

Ltac break_match :=
  match goal with
  | |- context [match ?x with _ => _ end] => destruct x eqn:?
  end.

Lemma process_single_problem_fst {U : Unicode} {E : SymPy}
  (st st' : state) (fi : file_info) (w : item_world) :
  fst (process_single_problem st fi w) = fst (process_single_problem st' fi w).
Proof.
  unfold process_single_problem.
  repeat (break_match; simpl; try reflexivity).
Qed.

Lemma process_single_problem_snd {U : Unicode} {E : SymPy}
  (st : state) (fi : file_info) (w : item_world) :
  snd (process_single_problem st fi w) =
  match fi_name fi with
  | None => st
  | Some _ => _trigger_callbacks "on_new_problem" (P_file fi) st
  end.
Proof.
  unfold process_single_problem.
  repeat (break_match; simpl; try reflexivity).
Qed.

(** ** The loop over the items *)

Definition successes {U : Unicode} {E : SymPy}
  (items : list (file_info * item_world)) : nat :=
  length (filter (fun r => r_success r) (map result_of items)).

Definition failures {U : Unicode} {E : SymPy}
  (items : list (file_info * item_world)) : nat :=
  length (filter (fun r => negb (r_success r)) (map result_of items)).

(** The calls that an item causes: on_new_problem when its name can be
    read, then on_solution_complete or on_error with its result. *)
Definition item_calls {U : Unicode} {E : SymPy}
  (cbs : list (string * list callback)) (item : file_info * item_world)
  : list call :=
  match fi_name (fst item) with
  | Some _ => calls_for cbs "on_new_problem" (P_file (fst item))
  | None => []
  end
  ++ (if r_success (result_of item)
      then calls_for cbs "on_solution_complete" (P_result (result_of item))
      else calls_for cbs "on_error" (P_result (result_of item))).

Definition add_item_stats (solved failed : nat) (s : stats) : stats :=
  {| total_runs := total_runs s;
     successful_runs := successful_runs s;
     failed_runs := failed_runs s;
     problems_solved := problems_solved s + solved;
     problems_failed := problems_failed s + failed;
     last_run := last_run s;
     last_success := last_success s;
     last_error := last_error s |}.

(** The state after the loop. *)
Definition loop_state {U : Unicode} {E : SymPy}
  (items : list (file_info * item_world)) (st : state) : state :=
  {| st_stats := add_item_stats (successes items) (failures items) (st_stats st);
     st_callbacks := st_callbacks st;
     st_calls := st_calls st ++ flat_map (item_calls (st_callbacks st)) items |}.

Lemma successes_cons {U : Unicode} {E : SymPy} item items :
  successes (item :: items) =
  (if r_success (result_of item) then 1 else 0) + successes items.
Proof.
  unfold successes. simpl. destruct (r_success (result_of item)); reflexivity.
Qed.

Lemma failures_cons {U : Unicode} {E : SymPy} item items :
  failures (item :: items) =
  (if r_success (result_of item) then 0 else 1) + failures items.
Proof.
  unfold failures. simpl. destruct (r_success (result_of item)); reflexivity.
Qed.

Lemma successes_failures {U : Unicode} {E : SymPy} items :
  successes items + failures items = length items.
Proof.
  induction items as [|item items IH]; [reflexivity|].
  rewrite successes_cons, failures_cons. simpl length.
  destruct (r_success (result_of item)); simpl; lia.
Qed.

Lemma state_eq (a b : state) :
  st_stats a = st_stats b -> st_callbacks a = st_callbacks b ->
  st_calls a = st_calls b -> a = b.
Proof. destruct a, b; simpl; intros; subst; reflexivity. Qed.

Lemma stats_eq (a b : stats) :
  total_runs a = total_runs b -> successful_runs a = successful_runs b ->
  failed_runs a = failed_runs b -> problems_solved a = problems_solved b ->
  problems_failed a = problems_failed b -> last_run a = last_run b ->
  last_success a = last_success b -> last_error a = last_error b -> a = b.
Proof. destruct a, b; simpl; intros; subst; reflexivity. Qed.

Lemma tuple4_eq (A B C D : Type) (a a' : A) (b b' : B) (c c' : C) (d d' : D) :
  a = a' -> b = b' -> c = c' -> d = d' -> (a, b, c, d) = (a', b', c', d').
Proof. intros; subst; reflexivity. Qed.

Lemma process_loop_spec {U : Unicode} {E : SymPy}
  (items : list (file_info * item_world)) :
  forall (st : state) (p e : nat) (rs : list item_result),
    process_loop items st p e rs =
    (loop_state items st, p + successes items, e + failures items,
     rs ++ map result_of items).
Proof.
  induction items as [|[fi w] items IH]; intros st p e rs.
  - simpl. rewrite app_nil_r, !Nat.add_0_r. repeat f_equal.
    apply state_eq; simpl; [|reflexivity|rewrite app_nil_r; reflexivity].
    apply stats_eq; simpl; try reflexivity; unfold successes, failures; simpl; lia.
  - simpl process_loop.
    rewrite (surjective_pairing (process_single_problem st fi w)).
    rewrite (process_single_problem_fst st initial_state),
            process_single_problem_snd.
    rewrite successes_cons, failures_cons. simpl map.
    unfold loop_state. simpl flat_map. unfold item_calls at 1.
    rewrite successes_cons, failures_cons.
    unfold result_of at 1 2 3 4 5 6 7 8 9. unfold item_outcome. simpl fst. simpl snd.
    destruct (fst (process_single_problem initial_state fi w)) as [result|ex] eqn:Ho.
    + destruct (r_success result) eqn:Hs; rewrite IH; apply tuple4_eq.
      all: try lia.
      all: try (rewrite <- app_assoc; reflexivity).
      all: destruct (fi_name fi); apply state_eq; simpl.
      all: try reflexivity.
      all: try (apply stats_eq; simpl; try reflexivity; lia).
      all: unfold calls_for; rewrite <- ?app_assoc; reflexivity.
    + simpl r_success. cbv iota. rewrite IH; apply tuple4_eq.
      all: try lia.
      all: try (rewrite <- app_assoc; reflexivity).
      destruct (fi_name fi); apply state_eq; simpl.
      all: try reflexivity.
      all: try (apply stats_eq; simpl; try reflexivity; lia).
      all: unfold calls_for; rewrite <- ?app_assoc; reflexivity.
Qed.

(** A run over a list of items that is not empty. *)
Lemma run_spec {U : Unicode} {E : SymPy}
  (items : list (file_info * item_world)) (st : state) (now : time) :
  items <> [] ->
  check_and_process_new_problems st now (Ret items) =
  ({| s_success := true; s_new_files := length items;
      s_processed := successes items; s_errors := failures items;
      s_message := None; s_error := None;
      s_results := Some (map result_of items) |},
   with_stats (if (failures items =? 0)%nat
               then run_succeeded now else run_failed)
     (loop_state items (with_stats (start_run now) st))).
Proof.
  intros Hne. destruct items as [|item items]; [contradiction|].
  unfold check_and_process_new_problems.
  rewrite process_loop_spec. simpl Nat.add. simpl app.
  destruct (failures (item :: items) =? 0)%nat; reflexivity.
Qed.

(** ** C1: the run that finds nothing *)

(** C1.  When discovery returns no item the summary has success, no item
    processed and no error, and [total_runs] is incremented; but the run
    returns before the statistics of its end are updated: [successful_runs],
    [failed_runs] and [last_success] are as before. *)
Theorem empty_run_is_not_counted :
  forall (U : Unicode) (E : SymPy) (st : state) (now : time),
    let '(sm, st') := check_and_process_new_problems st now (Ret []) in
    s_success sm = true /\ s_processed sm = 0 /\ s_errors sm = 0
    /\ total_runs (st_stats st') = total_runs (st_stats st) + 1
    /\ successful_runs (st_stats st') = successful_runs (st_stats st)
    /\ failed_runs (st_stats st') = failed_runs (st_stats st)
    /\ last_success (st_stats st') = last_success (st_stats st).
Proof.
  intros U E st now. simpl. repeat split.
Qed.

(** The sibling path: a run with items and no error is counted. *)
Lemma clean_run_is_counted {U : Unicode} {E : SymPy}
  (items : list (file_info * item_world)) (st : state) (now : time) :
  items <> [] -> failures items = 0 ->
  let st' := snd (check_and_process_new_problems st now (Ret items)) in
  successful_runs (st_stats st') = successful_runs (st_stats st) + 1
  /\ last_success (st_stats st') = Some now.
Proof.
  intros Hne Hf. rewrite run_spec by exact Hne. rewrite Hf. simpl.
  split; reflexivity.
Qed.

(** ** C10: the success flag of the summary *)

Definition item_fails {U : Unicode} {E : SymPy}
  (item : file_info * item_world) : Prop :=
  r_success (result_of item) = false.

Lemma all_fail_counts {U : Unicode} {E : SymPy}
  (items : list (file_info * item_world)) :
  Forall item_fails items ->
  successes items = 0 /\ failures items = length items.
Proof.
  induction 1 as [|item items Hf _ [IHs IHf]]; [split; reflexivity|].
  rewrite successes_cons, failures_cons. unfold item_fails in Hf.
  rewrite Hf, IHs, IHf. split; reflexivity.
Qed.

(** C10.  The summary has success false exactly when the discovery call
    raises; when discovery returns, the summary has success true, also when
    every item fails, and then errors is the number of items and processed
    is 0. *)
Theorem success_flag_follows_discovery :
  forall (U : Unicode) (E : SymPy) (st : state) (now : time)
         (discovery : outcome (list (file_info * item_world))),
    (s_success (fst (check_and_process_new_problems st now discovery)) = false
     <-> exists e, discovery = Raise e)
    /\ (forall items,
          discovery = Ret items -> Forall item_fails items ->
          let sm := fst (check_and_process_new_problems st now discovery) in
          s_success sm = true /\ s_processed sm = 0
          /\ s_errors sm = length items).
Proof.
  intros U E st now discovery. split.
  - destruct discovery as [items|e].
    + destruct items as [|item items].
      * simpl. split; [discriminate | intros [e He]; discriminate He].
      * rewrite run_spec by discriminate. simpl.
        split; [discriminate | intros [e He]; discriminate He].
    + simpl. split; [intros _; exists e; reflexivity | reflexivity].
  - intros items -> Hall. destruct items as [|item items].
    + simpl. repeat split.
    + rewrite run_spec by discriminate. simpl.
      destruct (all_fail_counts Hall) as [Hs Hf].
      rewrite Hs, Hf. repeat split.
Qed.

(** Two items, one that cannot be downloaded and one of a type that is not
    allowed: both fail and the run is reported as a success. *)
Lemma success_flag_follows_discovery_witness :
  let items :=
    [ (named "a.txt",
       {| w_download := false; w_file := text_file (str "1 + 1");
          w_upload := Ret true; w_main_page := true; w_email := true |});
      (named "b.exe", all_well exe_file) ] in
  let sm := fst (check_and_process_new_problems (E := sympy_solves)
                   initial_state 7%N (Ret items)) in
  s_success sm = true /\ s_processed sm = 0 /\ s_errors sm = 2.
Proof.
  intros items sm.
  destruct (success_flag_follows_discovery ascii_tables sympy_solves
              initial_state 7%N (Ret items)) as [_ H].
  apply (H items eq_refl).
  constructor; [vm_compute; reflexivity|].
  constructor; [vm_compute; reflexivity|].
  constructor.
Defined.

(** ** C5: the items of a run are processed one by one *)

(** The calls of callback [cb] for [event] among [calls]. *)
Definition calls_of (event : string) (cb : callback) (calls : list call) : nat :=
  length (filter (fun c => String.eqb (fst (fst c)) event
                           && Nat.eqb (snd (fst c)) cb) calls).

(** The item is downloaded and the safety validation refuses it. *)
Definition fails_at_safety (item : file_info * item_world) : Prop :=
  (exists name, fi_name (fst item) = Some name)
  /\ w_download (snd item) = true
  /\ fst (validate_file_safety (w_file (snd item))) = false.

(** The item goes through the whole pipeline. *)
Definition fully_succeeds {U : Unicode} {E : SymPy}
  (item : file_info * item_world) : Prop :=
  exists r, item_outcome item = Ret r /\ r_success r = true.

Lemma calls_of_app (event : string) (cb : callback) (a b : list call) :
  calls_of event cb (a ++ b) = calls_of event cb a + calls_of event cb b.
Proof. unfold calls_of. rewrite filter_app, length_app. reflexivity. Qed.

Lemma calls_of_calls_for (event event' : string) (cb : callback)
  (cbs : list (string * list callback)) (data : payload) :
  calls_of event cb (calls_for cbs event' data) =
  if String.eqb event' event
  then count_occ Nat.eq_dec (callbacks_get cbs event') cb
  else 0.
Proof.
  unfold calls_of, calls_for.
  induction (callbacks_get cbs event') as [|x l IH]; simpl.
  - destruct (String.eqb event' event); reflexivity.
  - destruct (String.eqb event' event); simpl; [|exact IH].
    destruct (Nat.eq_dec x cb) as [Heq|Hne].
    + subst. rewrite Nat.eqb_refl. simpl. rewrite IH. reflexivity.
    + apply Nat.eqb_neq in Hne. rewrite Hne. exact IH.
Qed.

Lemma item_calls_on_error {U : Unicode} {E : SymPy}
  (cbs : list (string * list callback)) (item : file_info * item_world)
  (cb : callback) :
  calls_of "on_error" cb (item_calls cbs item) =
  if r_success (result_of item) then 0
  else count_occ Nat.eq_dec (callbacks_get cbs "on_error") cb.
Proof.
  unfold item_calls. rewrite calls_of_app.
  destruct (fi_name (fst item)), (r_success (result_of item));
    rewrite ?calls_of_calls_for; reflexivity.
Qed.

Lemma item_calls_on_solution_complete {U : Unicode} {E : SymPy}
  (cbs : list (string * list callback)) (item : file_info * item_world)
  (cb : callback) :
  calls_of "on_solution_complete" cb (item_calls cbs item) =
  if r_success (result_of item)
  then count_occ Nat.eq_dec (callbacks_get cbs "on_solution_complete") cb
  else 0.
Proof.
  unfold item_calls. rewrite calls_of_app.
  destruct (fi_name (fst item)), (r_success (result_of item));
    rewrite ?calls_of_calls_for; reflexivity.
Qed.

Lemma fails_at_safety_result {U : Unicode} {E : SymPy}
  (item : file_info * item_world) :
  fails_at_safety item -> r_success (result_of item) = false.
Proof.
  destruct item as [fi w]. intros [[name Hn] [Hd Hs]]. simpl in *.
  unfold result_of, item_outcome, process_single_problem. simpl.
  rewrite Hn, Hd. simpl.
  destruct (validate_file_safety (w_file w)) as [safe reason].
  simpl in Hs. subst safe. reflexivity.
Qed.

Lemma fully_succeeds_result {U : Unicode} {E : SymPy}
  (item : file_info * item_world) :
  fully_succeeds item -> r_success (result_of item) = true.
Proof.
  intros [r [Ho Hr]]. unfold result_of. rewrite Ho. exact Hr.
Qed.

(** C5.  Every item of a run gets the result of its own processing, whatever
    becomes of the items before it, also when its processing raises: the
    results of the run are the results of the items, one for each, and
    processed and errors add up to the number of items.  In a run with two
    items of which one fails at the safety validation and the other fully
    succeeds, processed is 1, errors is 1, and every callback is called once
    for each of its registrations for on_error, and once for each of its
    registrations for on_solution_complete. *)
Theorem batch_isolation :
  forall (U : Unicode) (E : SymPy) (st : state) (now : time)
         (items : list (file_info * item_world)),
    let sm := fst (check_and_process_new_problems st now (Ret items)) in
    let st' := snd (check_and_process_new_problems st now (Ret items)) in
    s_processed sm + s_errors sm = length items
    /\ (items <> [] -> s_results sm = Some (map result_of items))
    /\ (forall a b,
          items = [a; b] ->
          (fails_at_safety a /\ fully_succeeds b)
          \/ (fully_succeeds a /\ fails_at_safety b) ->
          s_processed sm = 1 /\ s_errors sm = 1
          /\ forall cb : callback,
               calls_of "on_error" cb (st_calls st') =
                 calls_of "on_error" cb (st_calls st)
                 + count_occ Nat.eq_dec
                     (callbacks_get (st_callbacks st) "on_error") cb
               /\ calls_of "on_solution_complete" cb (st_calls st') =
                    calls_of "on_solution_complete" cb (st_calls st)
                    + count_occ Nat.eq_dec
                        (callbacks_get (st_callbacks st) "on_solution_complete")
                        cb).
Proof.
  intros U E st now items sm st'. subst sm st'.
  destruct items as [|item items].
  - simpl. split; [reflexivity|]. split; [intros H; contradiction|].
    intros a b Hab. discriminate Hab.
  - rewrite run_spec by discriminate. simpl fst. simpl snd.
    split; [apply successes_failures|]. split; [reflexivity|].
    intros a b Hab Hcase. inversion Hab; subst. clear Hab.
    assert (Hres : (r_success (result_of a) = false
                    /\ r_success (result_of b) = true)
                   \/ (r_success (result_of a) = true
                       /\ r_success (result_of b) = false)).
    { destruct Hcase as [[Ha Hb]|[Ha Hb]]; [left|right]; split;
        auto using fails_at_safety_result, fully_succeeds_result. }
    simpl s_processed. simpl s_errors.
    rewrite !successes_cons, !failures_cons.
    assert (Hcalls : forall f (s : state), st_calls (with_stats f s) = st_calls s)
      by reflexivity.
    rewrite Hcalls. unfold loop_state. simpl st_calls. simpl st_callbacks.
    simpl flat_map. rewrite app_nil_r.
    split; [|split].
    + destruct Hres as [[-> ->]|[-> ->]]; reflexivity.
    + destruct Hres as [[-> ->]|[-> ->]]; reflexivity.
    + intros cb. rewrite !calls_of_app.
      rewrite !item_calls_on_error, !item_calls_on_solution_complete.
      destruct Hres as [[-> ->]|[-> ->]]; split; lia.
Qed.

(** The scenario with a file of a type that is not allowed and a text file
    with an equation, on a service with one callback for each event. *)
Lemma batch_isolation_witness :
  let items :=
    [ (named "b.exe", all_well exe_file);
      (named "p.txt", all_well (text_file (str "Solve x^2 - 4 = 0"))) ] in
  let run := check_and_process_new_problems (E := sympy_solves)
               observed_state 7%N (Ret items) in
  s_processed (fst run) = 1 /\ s_errors (fst run) = 1
  /\ calls_of "on_error" 3 (st_calls (snd run)) = 1
  /\ calls_of "on_solution_complete" 2 (st_calls (snd run)) = 1.
Proof.
  intros items run.
  destruct (batch_isolation ascii_tables sympy_solves observed_state 7%N items)
    as [_ [_ H]].
  destruct (H (named "b.exe", all_well exe_file)
              (named "p.txt", all_well (text_file (str "Solve x^2 - 4 = 0")))
              eq_refl) as [Hp [He Hc]].
  - left. split.
    + split; [exists "b.exe"; reflexivity|]. split; vm_compute; reflexivity.
    + eexists. split; vm_compute; reflexivity.
  - split; [exact Hp|]. split; [exact He|].
    destruct (Hc 3) as [H3 _]. destruct (Hc 2) as [_ H2].
    split; [exact H3 | exact H2].
Defined.

(** ** C3: delivery after a successful solve *)

(** The item comes to the solving step, with solution [sol], and the solver
    succeeds. *)
Definition solve_step_succeeds {U : Unicode} {E : SymPy}
  (fi : file_info) (w : item_world) (file_name : string)
  (sol : solution_result) : Prop :=
  fi_name fi = Some file_name
  /\ w_download w = true
  /\ fst (validate_file_safety (w_file w)) = true
  /\ fst (validate_mathematical_content (w_file w)) = true
  /\ (exists c t, _extract_text_from_file (w_file w) = Some (c :: t)
                  /\ sol = solve_problem (c :: t) file_name)
  /\ sr_success sol = true.

(** The same item with other answers of the delivery collaborators. *)
Definition with_delivery (w : item_world) (upload : outcome bool)
  (main_page email : bool) : item_world :=
  {| w_download := w_download w; w_file := w_file w;
     w_upload := upload; w_main_page := main_page; w_email := email |}.

(** C3, as the code has it.  After a successful solve the answer of the
    upload decides alone: when the upload fails (returns False) the item is
    a failure and its result carries the solution under 'solution_data';
    when the upload succeeds the item is a success with the solution under
    'solution_result', whether or not the index page is updated and the
    notification is sent. *)
Theorem delivery_after_solve :
  forall (U : Unicode) (E : SymPy) (st : state) (fi : file_info)
         (w : item_world) (file_name : string) (sol : solution_result)
         (main_page email : bool),
    solve_step_succeeds fi w file_name sol ->
    fst (process_single_problem st fi
           (with_delivery w (Ret false) main_page email)) =
      Ret {| r_success := false;
             r_file_name := file_name;
             r_error := Some E_upload;
             r_solution_attempt := None;
             r_solution_data := Some sol;
             r_solution_result := None;
             r_solution_info := None;
             r_message := None |}
    /\ fst (process_single_problem st fi
              (with_delivery w (Ret true) main_page email)) =
         Ret {| r_success := true;
                r_file_name := file_name;
                r_error := None;
                r_solution_attempt := None;
                r_solution_data := None;
                r_solution_result := Some sol;
                r_solution_info :=
                  Some {| si_problem_name := file_name;
                          si_status := "Solved Successfully" |};
                r_message :=
                  Some "Problem solved and solution uploaded successfully" |}.
Proof.
  intros U E st fi w file_name sol main_page email
         [Hn [Hd [Hs [Hm [[c [t [Hx Hsol]]] Hok]]]]].
  unfold process_single_problem, with_delivery. simpl.
  rewrite Hn, Hd. simpl.
  destruct (validate_file_safety (w_file w)) as [safe sreason].
  simpl in Hs. subst safe. simpl.
  destruct (validate_mathematical_content (w_file w)) as [math mreason].
  simpl in Hm. subst math. simpl.
  rewrite Hx. rewrite <- Hsol. rewrite Hok. simpl. split; reflexivity.
Qed.

Lemma delivery_after_solve_witness :
  let w := all_well (text_file (str "Solve x^2 - 4 = 0")) in
  let sol := solve_problem (E := sympy_solves) (str "Solve x^2 - 4 = 0") "p.txt" in
  r_solution_data
    (result_of (E := sympy_solves)
       (named "p.txt", with_delivery w (Ret false) true true)) = Some sol
  /\ r_success
       (result_of (E := sympy_solves)
          (named "p.txt", with_delivery w (Ret true) false false)) = true.
Proof.
  intros w sol.
  assert (H : solve_step_succeeds (E := sympy_solves) (named "p.txt") w "p.txt" sol).
  { split; [reflexivity|]. split; [reflexivity|].
    split; [vm_compute; reflexivity|]. split; [vm_compute; reflexivity|].
    split; [|vm_compute; reflexivity].
    exists 83%N, (tl (str "Solve x^2 - 4 = 0")). split; reflexivity. }
  split.
  - unfold result_of, item_outcome. cbn [fst snd].
    destruct (@delivery_after_solve ascii_tables sympy_solves initial_state
                _ _ _ _ true true H) as [-> _].
    reflexivity.
  - unfold result_of, item_outcome. cbn [fst snd].
    destruct (@delivery_after_solve ascii_tables sympy_solves initial_state
                _ _ _ _ false false H) as [_ ->].
    reflexivity.
Defined.

(** C3, as the specification words it, fails: the equation is solved and
    uploaded, the update of the index page and the notification both fail,
    and the item is reported as a success without an error. *)
Lemma undelivered_item_is_reported_solved :
  let w := {| w_download := true;
              w_file := text_file (str "Solve x^2 - 4 = 0");
              w_upload := Ret true;
              w_main_page := false;
              w_email := false |} in
  sr_success (solve_problem (E := sympy_solves) (str "Solve x^2 - 4 = 0") "p.txt")
    = true
  /\ exists r,
       fst (process_single_problem (E := sympy_solves) initial_state
              (named "p.txt") w) = Ret r
       /\ r_success r = true /\ r_error r = None.
Proof.
  intros w. split; [vm_compute; reflexivity|].
  eexists. split; [vm_compute; reflexivity|]. split; reflexivity.
Qed.

(** ** C4: the runs in flight *)

Lemma step_scheduled_bound (a : action) (c : control) :
  scheduled_active c <= max_instances ->
  scheduled_active (step a c) <= max_instances.
Proof.
  intros Hc. destruct a; unfold step.
  - destruct (is_running c); simpl; lia.
  - destruct (is_running c && (scheduled_active c =? 0)%nat); simpl; lia.
  - destruct (is_running c && (scheduled_active c <? max_instances)%nat)
      eqn:Hlt; simpl; [|lia].
    apply andb_true_iff in Hlt. destruct Hlt as [_ Hlt].
    apply Nat.ltb_lt in Hlt. lia.
  - simpl. lia.
  - simpl. lia.
  - simpl. lia.
Qed.

Lemma steps_scheduled_bound (actions : list action) :
  forall c : control,
    scheduled_active c <= max_instances ->
    scheduled_active (steps actions c) <= max_instances.
Proof.
  unfold steps. induction actions as [|a actions IH]; intros c Hc; simpl.
  - exact Hc.
  - apply IH. apply step_scheduled_bound. exact Hc.
Qed.

(** C4, as the code has it.  At every moment at most one instance of the
    scheduled job executes: a tick that fires while one executes starts
    nothing.  A manual trigger is subject to no such rule: it starts a run
    body in any state and leaves the scheduled instances as they are. *)
Theorem scheduled_runs_do_not_overlap :
  (forall actions : list action,
     scheduled_active (steps actions initial_control) <= 1)
  /\ (forall c : control,
        scheduled_active c = max_instances -> step Tick c = c)
  /\ (forall c : control,
        active_runs (step ManualTrigger c) = active_runs c + 1
        /\ scheduled_active (step ManualTrigger c) = scheduled_active c).
Proof.
  split; [|split].
  - intros actions. apply (steps_scheduled_bound actions initial_control).
    simpl. unfold max_instances. lia.
  - intros c Hc. unfold step. rewrite Hc. simpl.
    rewrite andb_false_r. reflexivity.
  - intros c. unfold active_runs. simpl. split; lia.
Qed.

Lemma scheduled_runs_do_not_overlap_witness :
  let c := steps [StartScheduler; DirectRunEnds; Tick] initial_control in
  scheduled_active c = max_instances /\ step Tick c = c.
Proof.
  intros c. split; [reflexivity|].
  apply scheduled_runs_do_not_overlap. reflexivity.
Defined.

(** C4, as the specification words it, fails: the scheduler is started, its
    first run ends, a tick starts a scheduled run and a manual trigger
    starts a second run body next to it; two manual triggers do the same. *)
Lemma manual_trigger_overlaps_a_run :
  let c := steps [StartScheduler; DirectRunEnds; Tick; ManualTrigger]
             initial_control in
  scheduled_active c = 1 /\ direct_active c = 1 /\ ~ active_runs c <= 1
  /\ ~ active_runs (steps [ManualTrigger; ManualTrigger] initial_control) <= 1.
Proof.
  intros c. vm_compute. repeat split; lia.
Qed.

(* ===================================================================== *)
(** * Further properties of the validator *)
(* ===================================================================== *)

Lemma in_strings_app (x : string) (xs ys : list string) :
  in_strings x (xs ++ ys) = in_strings x xs || in_strings x ys.
Proof. unfold in_strings. apply existsb_app. Qed.

(** A file that the safety validation accepts exists, is readable, has no
    unsafe MIME type and has an extension of the allow-list; so the
    extraction of its text goes to the backend of its type and never takes
    the branch of the unsupported types. *)
Theorem safe_files_have_a_backend :
  forall f : file_state,
    fst (validate_file_safety f) = true ->
    validate_file_safety f = (true, R_safe)
    /\ f_exists f = true /\ f_readable f = true
    /\ unsafe_mime (f_mime f) = None
    /\ (_extract_text_content f (f_ext f) = f_text f
        \/ _extract_text_content f (f_ext f) = Some (_extract_from_image f)
        \/ _extract_text_content f (f_ext f) = Some (_extract_from_pdf f)).
Proof.
  intros f. unfold validate_file_safety, _extract_text_content. cbv zeta.
  rewrite !in_strings_app.
  destruct (in_strings (f_ext f) supported_text_types);
    destruct (in_strings (f_ext f) supported_image_types);
    destruct (in_strings (f_ext f) supported_pdf_types);
    destruct (f_exists f); destruct (f_readable f);
    destruct (unsafe_mime (f_mime f));
    cbn [negb orb fst]; intros H; try discriminate H; repeat split; auto.
Qed.

Lemma safe_files_have_a_backend_witness :
  validate_file_safety (text_file (str "2 + 2")) = (true, R_safe)
  /\ fst (validate_file_safety exe_file) = false.
Proof.
  split; [|reflexivity].
  apply (safe_files_have_a_backend (text_file (str "2 + 2"))). reflexivity.
Defined.

Lemma valid_verdict_inv :
  forall (U : Unicode) (f : file_state),
    fst (validate_mathematical_content f) = true ->
    f_exists f = true
    /\ (f_size f <= 50 * 1024 * 1024)%N
    /\ exists t : text,
         _extract_text_content f (f_ext f) = Some t
         /\ t <> []
         /\ _contains_forbidden_content t = false
         /\ snd (validate_mathematical_content f) =
              R_valid (_calculate_mathematical_score t)
         /\ (1 # 10 <= _calculate_mathematical_score t)%Q
         /\ (_calculate_mathematical_score t <= 1)%Q.
Proof.
  intros U f. unfold validate_mathematical_content.
  destruct (f_exists f); cbn [negb fst snd]; [|discriminate].
  destruct (50 * 1024 * 1024 <? f_size f)%N eqn:Hsize; cbn [fst snd];
    [discriminate|].
  apply N.ltb_ge in Hsize.
  destruct (_extract_text_content f (f_ext f)) as [[|c t]|]; cbn [fst snd];
    try discriminate.
  destruct (_contains_forbidden_content (c :: t)) eqn:Hf; cbn [fst snd];
    [discriminate|].
  unfold below_threshold.
  destruct (Qlt_le_dec (_calculate_mathematical_score (c :: t)) (1 # 10))
    as [Hlt|Hge]; cbn [fst snd]; [discriminate|].
  intros _. split; [reflexivity|]. split; [exact Hsize|].
  exists (c :: t). repeat split; try assumption; try discriminate.
  apply score_bounds.
Qed.

(** A verdict "valid" of the file validation means: the file exists, it has
    at most 50 MB, a text that is not empty was extracted from it, the text
    has no forbidden content, and the reason carries the score of the text,
    which is at least 0.1 and at most 1. *)
Theorem valid_verdict_is_sound :
  forall (U : Unicode) (f : file_state),
    fst (validate_mathematical_content f) = true ->
    f_exists f = true
    /\ (f_size f <= 50 * 1024 * 1024)%N
    /\ exists t : text,
         _extract_text_content f (f_ext f) = Some t
         /\ t <> []
         /\ _contains_forbidden_content t = false
         /\ snd (validate_mathematical_content f) =
              R_valid (_calculate_mathematical_score t)
         /\ (1 # 10 <= _calculate_mathematical_score t)%Q
         /\ (_calculate_mathematical_score t <= 1)%Q.
Proof. exact valid_verdict_inv. Qed.

Lemma valid_verdict_is_sound_witness :
  exists t : text,
    _extract_text_content (text_file (str "Solve x^2 - 4 = 0")) ".txt" = Some t
    /\ (1 # 10 <= _calculate_mathematical_score t)%Q.
Proof.
  destruct (valid_verdict_is_sound ascii_tables
              (text_file (str "Solve x^2 - 4 = 0")))
    as [_ [_ [t [Hx [_ [_ [_ [Hs _]]]]]]]].
  - vm_compute. reflexivity.
  - exists t. split; [exact Hx | exact Hs].
Defined.

Lemma strip_nil {U : Unicode} : strip [] = [].
Proof. reflexivity. Qed.

(** The solver checks the text again ([_is_mathematical_problem]); a text
    that comes from a file with the verdict "valid" passes this second
    check, unless the text is only whitespace. *)
Theorem validated_text_passes_the_solver_check :
  forall (U : Unicode) (f : file_state) (t : text),
    fst (validate_mathematical_content f) = true ->
    _extract_text_content f (f_ext f) = Some t ->
    strip t <> [] ->
    _is_mathematical_problem t = true.
Proof.
  intros U f t Hv Hx Hs.
  unfold validate_mathematical_content in Hv.
  destruct (negb (f_exists f)); cbn [fst] in Hv; [discriminate|].
  destruct (50 * 1024 * 1024 <? f_size f)%N; cbn [fst] in Hv; [discriminate|].
  rewrite Hx in Hv. destruct t as [|c t]; cbn [fst] in Hv; [discriminate|].
  unfold _is_mathematical_problem, validate_mathematical_content_text.
  destruct (strip (c :: t)); [contradiction|].
  destruct (_contains_forbidden_content (c :: t)); cbn [fst] in Hv;
    [discriminate|].
  destruct (below_threshold (_calculate_mathematical_score (c :: t)));
    cbn [fst] in Hv; [discriminate | reflexivity].
Qed.

Lemma validated_text_passes_the_solver_check_witness :
  _is_mathematical_problem (str "Solve x^2 - 4 = 0") = true.
Proof.
  apply (@validated_text_passes_the_solver_check ascii_tables
           (text_file (str "Solve x^2 - 4 = 0")) (str "Solve x^2 - 4 = 0")).
  - vm_compute. reflexivity.
  - reflexivity.
  - vm_compute. discriminate.
Defined.

Lemma keyword_loop_no_hit {U : Unicode} (ks : list text) (tl : text) (acc : Q) :
  (forall k, In k ks -> contains k tl = false) ->
  keyword_loop ks tl acc = acc.
Proof.
  revert acc. induction ks as [|k ks IH]; intros acc Hno; simpl; [reflexivity|].
  rewrite (Hno k (or_introl eq_refl)). apply IH.
  intros k' Hk'. apply Hno. right. exact Hk'.
Qed.

Lemma symbol_loop_no_hit {U : Unicode} (ps : list regex) (t : text) (n : nat) :
  (forall p, In p ps -> re_findall false p t = []) ->
  symbol_loop ps t n = n.
Proof.
  revert n. induction ps as [|p ps IH]; intros n Hno; simpl; [reflexivity|].
  rewrite (Hno p (or_introl eq_refl)). simpl. rewrite Nat.add_0_r. apply IH.
  intros p' Hp'. apply Hno. right. exact Hp'.
Qed.

(** A text in which no keyword of the vocabulary occurs and no symbol
    pattern matches has score 0 and is rejected: nothing but a keyword or a
    pattern match gives a text a score. *)
Theorem no_hit_no_score :
  forall (U : Unicode) (t : text),
    (forall k, In k all_keywords -> contains k (str_lower t) = false) ->
    (forall p, In p math_symbols -> re_findall false p t = []) ->
    (_calculate_mathematical_score t == 0)%Q
    /\ fst (validate_mathematical_content_text t) = false.
Proof.
  intros U t Hk Hp.
  assert (Hs : (_calculate_mathematical_score t == 0)%Q).
  { unfold _calculate_mathematical_score.
    destruct t as [|c t]; [reflexivity|].
    destruct (re_findall false word_pattern (str_lower (c :: t))) as [|w ws];
      [reflexivity|].
    rewrite (keyword_loop_no_hit _ _ _ Hk), (symbol_loop_no_hit _ _ _ Hp).
    destruct (Qlt_le_dec 0 (Q_of_nat (length (w :: ws)) * (1 # 2)));
      [|reflexivity].
    unfold py_min.
    destruct (Qlt_le_dec 1 ((0 + Q_of_nat 0) / (Q_of_nat (length (w :: ws)) * (1 # 2))))
      as [Hlt|Hle].
    - exfalso. revert Hlt. unfold Q_of_nat at 1. simpl inject_Z.
      unfold Qdiv. rewrite Qplus_0_l, Qmult_0_l. intros Hlt.
      apply Qlt_not_le in Hlt. apply Hlt. discriminate.
    - unfold Q_of_nat at 1. simpl inject_Z. unfold Qdiv.
      rewrite Qplus_0_l, Qmult_0_l. reflexivity. }
  split; [exact Hs|].
  unfold validate_mathematical_content_text.
  destruct t as [|c t]; [reflexivity|].
  destruct (strip (c :: t)); [reflexivity|].
  destruct (_contains_forbidden_content (c :: t)); [reflexivity|].
  unfold below_threshold.
  destruct (Qlt_le_dec (_calculate_mathematical_score (c :: t)) (1 # 10))
    as [Hlt|Hge]; [reflexivity|].
  exfalso. rewrite Hs in Hge. apply Qle_not_lt in Hge. apply Hge. reflexivity.
Qed.

Lemma no_hit_no_score_witness :
  fst (validate_mathematical_content_text (str "Hello, how are you today?"))
  = false.
Proof.
  apply (@no_hit_no_score ascii_tables (str "Hello, how are you today?")).
  - intros k Hk.
    assert (H : forallb
                  (fun k => negb (contains k
                                    (str_lower (str "Hello, how are you today?"))))
                  all_keywords = true)
      by (vm_compute; reflexivity).
    rewrite forallb_forall in H. apply negb_true_iff. exact (H k Hk).
  - intros p Hp.
    assert (H : forallb
                  (fun p => match re_findall false p
                                    (str "Hello, how are you today?") with
                            | [] => true
                            | _ :: _ => false
                            end) math_symbols = true)
      by (vm_compute; reflexivity).
    rewrite forallb_forall in H. specialize (H p Hp).
    destruct (re_findall false p (str "Hello, how are you today?"));
      [reflexivity | discriminate H].
Defined.

(* ===================================================================== *)
(** * Further properties of the solver *)
(* ===================================================================== *)

(** [_extract_expressions] in one equation. *)
Lemma extract_expressions_spec {U : Unicode} (t : text) :
  _extract_expressions t =
  first_occurrences
    (match candidates equation_pattern (instructions_removed t) with
     | [] => flat_map (fun p => candidates p (instructions_removed t))
               fallback_patterns
     | c :: cs => c :: cs
     end) [].
Proof.
  unfold _extract_expressions. cbv zeta.
  rewrite unique_loop_spec, append_matches_spec, !app_nil_l.
  fold (candidates equation_pattern (instructions_removed t)).
  destruct (candidates equation_pattern (instructions_removed t)); [|reflexivity].
  rewrite fallback_loop_spec, app_nil_l. reflexivity.
Qed.

Lemma first_occurrences_NoDup (es seen : list text) :
  NoDup (first_occurrences es seen).
Proof.
  revert seen. induction es as [|e es IH]; intros seen; simpl; [constructor|].
  destruct (mem e seen); [apply IH|].
  constructor; [|apply IH].
  rewrite first_occurrences_In. intros [_ Hn]. apply Hn. left. reflexivity.
Qed.

Lemma candidates_long {U : Unicode} (p : regex) (ct e : text) :
  In e (candidates p ct) -> 2 < length e.
Proof.
  unfold candidates. rewrite filter_In. intros [_ H].
  apply Nat.ltb_lt. exact H.
Qed.

(** The expressions that [_extract_expressions] returns are pairwise
    different and each one has more than two characters. *)
Theorem extracted_expressions_are_distinct_and_long :
  forall (U : Unicode) (t : text),
    NoDup (_extract_expressions t)
    /\ Forall (fun e => 2 < length e) (_extract_expressions t).
Proof.
  intros U t. rewrite extract_expressions_spec.
  split; [apply first_occurrences_NoDup|].
  apply Forall_forall. intros e He.
  apply first_occurrences_In in He. destruct He as [He _].
  destruct (candidates equation_pattern (instructions_removed t)) eqn:Hc.
  - apply in_flat_map in He. destruct He as [p [_ Hp]].
    exact (candidates_long _ _ _ Hp).
  - rewrite <- Hc in He. exact (candidates_long _ _ _ He).
Qed.

(** When the equation pattern gives a candidate, the result is made of the
    candidates of the equation pattern alone: the other patterns are not
    applied. *)
Theorem equations_take_precedence :
  forall (U : Unicode) (t : text),
    candidates equation_pattern (instructions_removed t) <> [] ->
    _extract_expressions t =
      first_occurrences
        (candidates equation_pattern (instructions_removed t)) [].
Proof.
  intros U t Hne. rewrite extract_expressions_spec.
  destruct (candidates equation_pattern (instructions_removed t));
    [contradiction | reflexivity].
Qed.

(** The product "(a+b)(a-b)" before an equation is not extracted on its
    own, although the first fallback pattern finds it. *)
Lemma equations_take_precedence_witness :
  _extract_expressions (str "(a+b)(a-b), x + 1 = 3") = [str "x + 1 = 3"]
  /\ candidates (nth 0 fallback_patterns Eps)
       (instructions_removed (str "(a+b)(a-b), x + 1 = 3")) = [str "(a+b)(a-b)"].
Proof.
  split; [|vm_compute; reflexivity].
  rewrite (@equations_take_precedence ascii_tables
             (str "(a+b)(a-b), x + 1 = 3")).
  - vm_compute. reflexivity.
  - vm_compute. discriminate.
Defined.

Lemma strip_prefix_incl (p s rest : text) :
  strip_prefix p s = Some rest -> incl rest s.
Proof.
  revert s. induction p as [|x p IH]; intros s H; simpl in H.
  - inversion H. apply incl_refl.
  - destruct s as [|y s]; [discriminate|].
    destruct (char_eqb x y); [|discriminate].
    apply incl_tl. apply IH. exact H.
Qed.

Lemma replace_from_chars (old new : text) (fuel : nat) :
  forall (s : text) (x : char),
    In x (replace_from fuel old new s) -> In x s \/ In x new.
Proof.
  induction fuel as [|fuel IH]; intros s x; simpl; [auto|].
  destruct (strip_prefix old s) as [rest|] eqn:Hp.
  - destruct old as [|o old].
    + rewrite in_app_iff. intros [H|H]; [auto|].
      destruct s as [|c s]; [contradiction|].
      destruct H as [H|H]; [subst; left; left; reflexivity|].
      destruct (IH _ _ H); [left; right; assumption | auto].
    + rewrite in_app_iff. intros [H|H]; [auto|].
      destruct (IH _ _ H) as [H'|H']; [|auto].
      left. exact (strip_prefix_incl _ _ Hp _ H').
  - destruct s as [|c s]; [contradiction|].
    intros [H|H]; [subst; left; left; reflexivity|].
    destruct (IH _ _ H); [left; right; assumption | auto].
Qed.

Lemma replace_from_removes (c : char) (new : text) (fuel : nat) :
  ~ In c new ->
  forall s : text, length s < fuel -> ~ In c (replace_from fuel [c] new s).
Proof.
  intros Hnew. induction fuel as [|fuel IH]; intros s Hlen; [lia|].
  simpl. destruct s as [|y s]; [simpl; tauto|].
  simpl in Hlen. unfold char_eqb. destruct (N.eqb c y) eqn:Hcy.
  - rewrite in_app_iff. intros [H|H]; [contradiction|].
    apply (IH s); [lia | exact H].
  - apply N.eqb_neq in Hcy. intros [H|H]; [congruence|].
    apply (IH s); [lia | exact H].
Qed.

Lemma replace_loop_keeps_out (g : char) (table : list (text * text)) :
  (forall e, In e table -> ~ In g (snd e)) ->
  forall t : text, ~ In g t -> ~ In g (replace_loop table t).
Proof.
  induction table as [|[old new] table IH]; intros Hnew t Ht; simpl; [exact Ht|].
  apply IH.
  - intros e He. apply Hnew. right. exact He.
  - intros H. apply replace_from_chars in H. destruct H as [H|H]; [contradiction|].
    exact (Hnew (old, new) (or_introl eq_refl) H).
Qed.

Lemma replace_loop_removes (g : char) (table : list (text * text)) :
  (forall e, In e table -> ~ In g (snd e)) ->
  (exists new, In ([g], new) table) ->
  forall t : text, ~ In g (replace_loop table t).
Proof.
  induction table as [|[old new] table IH]; intros Hnew [new' Hin] t;
    [contradiction|].
  simpl. destruct Hin as [Heq|Hin].
  - inversion Heq; subst. apply replace_loop_keeps_out.
    + intros e He. apply Hnew. right. exact He.
    + unfold replace. apply replace_from_removes; [|lia].
      exact (Hnew ([g], new') (or_introl eq_refl)).
  - apply IH; [|exists new'; exact Hin].
    intros e He. apply Hnew. right. exact He.
Qed.

Lemma replacements_ok :
  forall e, In e replacements ->
    forallb (fun c => (c <? 128)%N) (snd e) = true
    /\ forallb (fun c => (128 <=? c)%N) (fst e) = true.
Proof.
  assert (H : forallb (fun e => forallb (fun c => (c <? 128)%N) (snd e)
                               && forallb (fun c => (128 <=? c)%N) (fst e))
                replacements = true) by (vm_compute; reflexivity).
  intros e He. rewrite forallb_forall in H. specialize (H e He).
  apply andb_true_iff in H. exact H.
Qed.

Unset Implicit Arguments.

(** None of the twenty glyphs of the replacement table is left in a
    preprocessed text. *)
Theorem preprocessed_text_has_no_glyph :
  forall (U : Unicode) (t : text) (g : char) (new : text),
    In ([g], new) replacements ->
    ~ In g (_preprocess_text t).
Proof.
  intros U t g new Hin. unfold _preprocess_text.
  apply replace_loop_removes; [|exists new; exact Hin].
  intros e He Hg.
  destruct (replacements_ok He) as [Hascii _].
  destruct (replacements_ok Hin) as [_ Hglyph].
  rewrite forallb_forall in Hascii. specialize (Hascii g Hg).
  cbn [fst forallb] in Hglyph. rewrite andb_true_r in Hglyph.
  apply N.ltb_lt in Hascii. apply N.leb_le in Hglyph. lia.
Qed.

Set Implicit Arguments.

Lemma preprocessed_text_has_no_glyph_witness :
  ~ In 8730%N (_preprocess_text ([8730%N] ++ str "(2) " ++ [215%N] ++ str " 3")).
Proof.
  apply (@preprocessed_text_has_no_glyph ascii_tables _ 8730%N (str "sqrt")).
  vm_compute. tauto.
Defined.

Lemma pattern_loop_in {U : Unicode} (ps : list (problem_type * regex))
  (tl : text) (pt : problem_type) :
  pattern_loop ps tl = Some pt -> In pt (map fst ps).
Proof.
  induction ps as [|[pt' p] ps IH]; simpl; [discriminate|].
  destruct (re_search true p tl).
  - intros H. inversion H. left. reflexivity.
  - intros H. right. apply IH. exact H.
Qed.

Lemma identify_is_not_unknown {U : Unicode} (t : text) :
  _identify_problem_type t <> unknown.
Proof.
  unfold _identify_problem_type.
  destruct (pattern_loop problem_patterns (str_lower t)) as [pt|] eqn:Hp.
  - apply pattern_loop_in in Hp. intros Hu. subst pt.
    change (map fst problem_patterns)
      with [equation; derivative; integral; limit; matrix; simplify; graph;
            optimization] in Hp.
    simpl in Hp.
    repeat (destruct Hp as [Hp|Hp]; [discriminate Hp|]). exact Hp.
  - destruct (contains (str "=") t
              && existsb (fun var => contains var t) common_symbols);
      [discriminate|].
    destruct (existsb (fun op => contains op t)
                (map str ["+"; "-"; "*"; "/"; "^"])); discriminate.
Qed.

(** A result with success was validated: the text passes the check of the
    validator and has no forbidden content, it was preprocessed, at least
    one expression was extracted from it, its type is none of limit, matrix,
    optimization and unknown, and the success is the one of the method of
    its type. *)
Theorem solved_problems_are_validated :
  forall (U : Unicode) (E : SymPy) (problem_text : text) (file_name : string),
    let r := solve_problem problem_text file_name in
    let cleaned := _preprocess_text problem_text in
    sr_success r = true ->
    fst (validate_mathematical_content_text problem_text) = true
    /\ _contains_forbidden_content problem_text = false
    /\ sr_cleaned_text r = Some cleaned
    /\ sr_expressions r = Some (_extract_expressions cleaned)
    /\ _extract_expressions cleaned <> []
    /\ sr_problem_type r = _identify_problem_type cleaned
    /\ sr_problem_type r <> limit /\ sr_problem_type r <> matrix
    /\ sr_problem_type r <> optimization /\ sr_problem_type r <> unknown
    /\ a_success (_solve_by_type (sr_problem_type r)
                    (_extract_expressions cleaned) cleaned) = true.
Proof.
  intros U E problem_text file_name r cleaned. subst r cleaned.
  unfold solve_problem, _is_mathematical_problem.
  destruct (fst (validate_mathematical_content_text problem_text)) eqn:Hv;
    cbn [negb]; [|intros H; discriminate H].
  assert (Hf : _contains_forbidden_content problem_text = false).
  { unfold validate_mathematical_content_text in Hv.
    destruct problem_text as [|c t]; [discriminate Hv|].
    destruct (strip (c :: t)); [discriminate Hv|].
    destruct (_contains_forbidden_content (c :: t));
      [discriminate Hv | reflexivity]. }
  destruct (_extract_expressions (_preprocess_text problem_text)) as [|e es]
    eqn:Hx; [intros H; discriminate H|].
  cbn [sr_success sr_cleaned_text sr_expressions sr_problem_type].
  intros Hs.
  split; [reflexivity|]. split; [exact Hf|].
  split; [reflexivity|]. split; [reflexivity|].
  split; [intros H; discriminate H|]. split; [reflexivity|].
  split; [intros Hpt; rewrite Hpt in Hs; discriminate Hs|].
  split; [intros Hpt; rewrite Hpt in Hs; discriminate Hs|].
  split; [intros Hpt; rewrite Hpt in Hs; discriminate Hs|].
  split; [apply identify_is_not_unknown | exact Hs].
Qed.

Lemma solved_problems_are_validated_witness :
  sr_problem_type (solve_problem (E := sympy_solves)
                     (str "Solve x^2 - 4 = 0") "p.txt") = equation.
Proof.
  destruct (@solved_problems_are_validated ascii_tables sympy_solves
              (str "Solve x^2 - 4 = 0") "p.txt")
    as [_ [_ [_ [_ [_ [Hpt _]]]]]].
  - vm_compute. reflexivity.
  - rewrite Hpt. vm_compute. reflexivity.
Defined.



(* ===================================================================== *)
(** * Further properties of the scheduler *)
(* ===================================================================== *)

(** ** The results of the items *)

(** The four parts of the statement below, for one way through
    [process_single_problem]. *)
Ltac wf_case :=
  simpl;
  split;
  [ split; intros Hgoal; first [discriminate Hgoal | reflexivity]
  | split;
    [ intros Hgoal;
      first [ discriminate Hgoal
            | eexists; split; [reflexivity|]; split; [eassumption|];
              split; reflexivity ]
    | split; intros sol Hgoal;
      first [ discriminate Hgoal
            | inversion Hgoal; subst; split; [assumption | reflexivity] ] ] ].

(** The result that a run records for an item is of one of three kinds: a
    success, which has no error and carries the solution of a successful
    solve under 'solution_result'; a failure with an error; among the
    failures only the one of a failed upload carries a solution under
    'solution_data', a successful one, and only the one of a failed solve
    carries a solution under 'solution_attempt', a failed one. *)
Theorem item_results_are_well_formed :
  forall (U : Unicode) (E : SymPy) (item : file_info * item_world),
    let r := result_of item in
    (r_success r = true <-> r_error r = None)
    /\ (r_success r = true ->
        exists sol, r_solution_result r = Some sol /\ sr_success sol = true
                    /\ r_solution_data r = None
                    /\ r_solution_attempt r = None)
    /\ (forall sol, r_solution_data r = Some sol ->
                    sr_success sol = true /\ r_error r = Some E_upload)
    /\ (forall sol, r_solution_attempt r = Some sol ->
                    sr_success sol = false
                    /\ r_error r = Some (E_solve (sr_error_message sol))).
Proof.
  intros U E [fi w] r. subst r.
  unfold result_of, item_outcome, process_single_problem. cbn [fst snd].
  destruct (fi_name fi) as [name|]; cbn [fst]; [|wf_case].
  destruct (negb (w_download w)); cbn [fst]; [wf_case|].
  destruct (validate_file_safety (w_file w)) as [safe sr].
  destruct (negb safe); cbn [fst]; [wf_case|].
  destruct (validate_mathematical_content (w_file w)) as [math mr].
  destruct (negb math); cbn [fst]; [wf_case|].
  destruct (_extract_text_from_file (w_file w)) as [[|c t]|]; cbn [fst];
    [wf_case| |wf_case].
  destruct (sr_success (solve_problem (c :: t) name)) eqn:Hs; cbn [negb fst];
    [|wf_case].
  destruct (w_upload w) as [[|]|e]; cbn [fst]; wf_case.
Qed.

Lemma item_results_are_well_formed_witness :
  exists sol,
    r_solution_result
      (result_of (E := sympy_solves)
         (named "p.txt", all_well (text_file (str "Solve x^2 - 4 = 0"))))
    = Some sol /\ sr_success sol = true.
Proof.
  destruct (item_results_are_well_formed ascii_tables sympy_solves
              (named "p.txt", all_well (text_file (str "Solve x^2 - 4 = 0"))))
    as [_ [H _]].
  destruct H as [sol [H1 [H2 _]]].
  - vm_compute. reflexivity.
  - exists sol. split; assumption.
Defined.

(** Only a clean item is reported as a success: it was downloaded, its type
    is allowed, its text is not empty, has no forbidden content and a score
    of at least 0.1, the solver succeeded on it and the upload returned
    True. *)
Theorem successful_items_are_clean :
  forall (U : Unicode) (E : SymPy) (item : file_info * item_world),
    r_success (result_of item) = true ->
    w_download (snd item) = true
    /\ fst (validate_file_safety (w_file (snd item))) = true
    /\ w_upload (snd item) = Ret true
    /\ exists (name : string) (t : text),
         fi_name (fst item) = Some name
         /\ _extract_text_from_file (w_file (snd item)) = Some t
         /\ t <> []
         /\ _contains_forbidden_content t = false
         /\ (1 # 10 <= _calculate_mathematical_score t)%Q
         /\ sr_success (solve_problem t name) = true.
Proof.
  intros U E [fi w].
  unfold result_of, item_outcome, process_single_problem. cbn [fst snd].
  destruct (fi_name fi) as [name|]; cbn [fst]; [|discriminate].
  destruct (w_download w); cbn [negb fst]; [|discriminate].
  destruct (validate_file_safety (w_file w)) as [safe sr].
  destruct safe; cbn [negb fst]; [|discriminate].
  destruct (validate_mathematical_content (w_file w)) as [math mr] eqn:Hm.
  destruct math; cbn [negb fst]; [|discriminate].
  assert (Hv : fst (validate_mathematical_content (w_file w)) = true)
    by (rewrite Hm; reflexivity).
  destruct (@valid_verdict_inv _ _ Hv) as [_ [_ [t [Hx [Hne [Hf [_ [Hs _]]]]]]]].
  unfold _extract_text_from_file. rewrite Hx.
  destruct t as [|c t]; [contradiction|].
  destruct (sr_success (solve_problem (c :: t) name)) eqn:Hok;
    cbn [negb fst]; [|discriminate].
  destruct (w_upload w) as [[|]|e]; cbn [fst]; try discriminate.
  intros _. repeat split.
  exists name, (c :: t). repeat split; try assumption.
Qed.

Lemma successful_items_are_clean_witness :
  w_upload (all_well (text_file (str "Solve x^2 - 4 = 0"))) = Ret true
  /\ r_success
       (result_of (E := sympy_solves)
          (named "p.txt", all_well (text_file (str "Solve x^2 - 4 = 0"))))
     = true.
Proof.
  assert (H : r_success
                (result_of (E := sympy_solves)
                   (named "p.txt",
                    all_well (text_file (str "Solve x^2 - 4 = 0")))) = true)
    by (vm_compute; reflexivity).
  split; [|exact H].
  apply (@successful_items_are_clean ascii_tables sympy_solves _ H).
Defined.

(** ** The statistics of a run *)

Definition stats_delta (st st' : state) (runs successful failed solved
                                          unsolved : nat) : Prop :=
  total_runs (st_stats st') = total_runs (st_stats st) + runs
  /\ successful_runs (st_stats st') = successful_runs (st_stats st) + successful
  /\ failed_runs (st_stats st') = failed_runs (st_stats st) + failed
  /\ problems_solved (st_stats st') = problems_solved (st_stats st) + solved
  /\ problems_failed (st_stats st') = problems_failed (st_stats st) + unsolved.

Lemma run_delta {U : Unicode} {E : SymPy} (st : state) (now : time)
  (discovery : outcome (list (file_info * item_world))) :
  let st' := snd (check_and_process_new_problems st now discovery) in
  match discovery with
  | Raise e =>
      stats_delta st st' 1 0 1 0 0
      /\ last_error (st_stats st') = Some e
      /\ last_success (st_stats st') = last_success (st_stats st)
  | Ret [] =>
      stats_delta st st' 1 0 0 0 0
      /\ last_error (st_stats st') = last_error (st_stats st)
      /\ last_success (st_stats st') = last_success (st_stats st)
  | Ret items =>
      last_error (st_stats st') = last_error (st_stats st)
      /\ if (failures items =? 0)%nat
         then stats_delta st st' 1 1 0 (successes items) 0
              /\ last_success (st_stats st') = Some now
         else stats_delta st st' 1 0 1 (successes items) (failures items)
              /\ last_success (st_stats st') = last_success (st_stats st)
  end
  /\ last_run (st_stats st') = Some now.
Proof.
  destruct discovery as [[|item items]|e].
  - simpl. unfold stats_delta. simpl. repeat split; lia.
  - rewrite run_spec by discriminate. cbn [snd].
    destruct (failures (item :: items) =? 0)%nat eqn:Hf.
    + apply Nat.eqb_eq in Hf. unfold stats_delta. simpl. rewrite Hf.
      repeat split; lia.
    + unfold stats_delta. simpl. repeat split; lia.
  - simpl. unfold stats_delta. simpl. repeat split; lia.
Qed.

(** What one run does to the statistics.  It adds one to total_runs and
    sets last_run.  When discovery raises, failed_runs is incremented and
    last_error set.  When discovery returns items, problems_solved and
    problems_failed grow by the numbers of items that succeed and that
    fail, and the run is counted as successful, with last_success set, when
    no item fails, and as failed otherwise.  last_error is changed by
    nothing else than a discovery that raises. *)
Theorem statistics_of_a_run :
  forall (U : Unicode) (E : SymPy) (st : state) (now : time)
         (discovery : outcome (list (file_info * item_world))),
    let s := st_stats st in
    let s' := st_stats (snd (check_and_process_new_problems st now discovery)) in
    total_runs s' = total_runs s + 1
    /\ last_run s' = Some now
    /\ (forall e, discovery = Raise e ->
          failed_runs s' = failed_runs s + 1
          /\ successful_runs s' = successful_runs s
          /\ last_error s' = Some e
          /\ last_success s' = last_success s)
    /\ (forall items, discovery = Ret items ->
          problems_solved s' = problems_solved s + successes items
          /\ problems_failed s' = problems_failed s + failures items
          /\ last_error s' = last_error s
          /\ (items <> [] -> failures items = 0 ->
              successful_runs s' = successful_runs s + 1
              /\ failed_runs s' = failed_runs s
              /\ last_success s' = Some now)
          /\ (failures items <> 0 ->
              failed_runs s' = failed_runs s + 1
              /\ successful_runs s' = successful_runs s
              /\ last_success s' = last_success s)).
Proof.
  intros U E st now discovery s s'. subst s s'.
  pose proof (run_delta st now discovery) as H. cbv zeta in H.
  unfold stats_delta in H.
  destruct discovery as [[|item items]|e].
  - destruct H as [[[Ht [Hs [Hf [Hp Hq]]]] [He Hl]] Hr].
    split; [exact Ht|]. split; [exact Hr|].
    split; [intros e H; discriminate H|].
    intros items Hi. inversion Hi; subst. clear Hi.
    change (successes []) with 0. change (failures []) with 0.
    split; [lia|]. split; [lia|]. split; [exact He|].
    split; [intros Hne; congruence | intros Hne; congruence].
  - destruct H as [[He H] Hr].
    destruct (failures (item :: items) =? 0)%nat eqn:Hz.
    + apply Nat.eqb_eq in Hz.
      destruct H as [[Ht [Hs [Hf [Hp Hq]]]] Hl].
      split; [exact Ht|]. split; [exact Hr|].
      split; [intros e H; discriminate H|].
      intros items' Hi. inversion Hi; subst. clear Hi.
      split; [lia|]. split; [lia|]. split; [exact He|].
      split; [intros _ _ | intros Hne; congruence].
      split; [lia|]. split; [lia | exact Hl].
    + apply Nat.eqb_neq in Hz.
      destruct H as [[Ht [Hs [Hf [Hp Hq]]]] Hl].
      split; [exact Ht|]. split; [exact Hr|].
      split; [intros e H; discriminate H|].
      intros items' Hi. inversion Hi; subst. clear Hi.
      split; [lia|]. split; [lia|]. split; [exact He|].
      split; [intros _ Hf0; congruence | intros _].
      split; [lia|]. split; [lia | exact Hl].
  - destruct H as [[[Ht [Hs [Hf [Hp Hq]]]] [He Hl]] Hr].
    split; [exact Ht|]. split; [exact Hr|].
    split.
    + intros e' H. inversion H; subst.
      split; [lia|]. split; [lia|]. split; [exact He | exact Hl].
    + intros items Hi. discriminate Hi.
Qed.

Lemma statistics_of_a_run_witness :
  let items := [ (named "p.txt", all_well (text_file (str "Solve x^2 - 4 = 0"))) ] in
  let s' := st_stats (snd (check_and_process_new_problems (E := sympy_solves)
                             initial_state 7%N (Ret items))) in
  successful_runs s' = 1 /\ last_success s' = Some 7%N.
Proof.
  intros items s'.
  destruct (statistics_of_a_run ascii_tables sympy_solves initial_state 7%N
              (Ret items)) as [_ [_ [_ H]]].
  destruct (H items eq_refl) as [_ [_ [_ [Hok _]]]].
  destruct Hok as [H1 [_ H3]].
  - discriminate.
  - vm_compute. reflexivity.
  - split; [exact H1 | exact H3].
Defined.

(** ** The statistics of a sequence of runs *)

Definition run := (time * outcome (list (file_info * item_world)))%type.

(** The runs one after the other. *)
Definition run_sequence {U : Unicode} {E : SymPy} (runs : list run)
  (st : state) : state :=
  fold_left
    (fun st r => snd (check_and_process_new_problems st (fst r) (snd r)))
    runs st.

(** The runs whose discovery returns no item. *)
Definition finds_nothing (r : run) : bool :=
  match snd r with
  | Ret [] => true
  | _ => false
  end.

(** The number of items that the discovery of a run returns. *)
Definition discovered (r : run) : nat :=
  match snd r with
  | Ret items => length items
  | Raise _ => 0
  end.

Lemma run_sequence_accounting {U : Unicode} {E : SymPy} (runs : list run) :
  forall st : state,
    let s := st_stats st in
    let s' := st_stats (run_sequence runs st) in
    total_runs s' = total_runs s + length runs
    /\ successful_runs s' + failed_runs s'
       + length (filter finds_nothing runs)
       = successful_runs s + failed_runs s + length runs
    /\ problems_solved s' + problems_failed s'
       = problems_solved s + problems_failed s + list_sum (map discovered runs)
    /\ successful_runs s <= successful_runs s'
    /\ failed_runs s <= failed_runs s'
    /\ problems_solved s <= problems_solved s'
    /\ problems_failed s <= problems_failed s'.
Proof.
  induction runs as [|[now discovery] runs IH]; intros st; cbv zeta.
  - simpl. repeat split; lia.
  - unfold run_sequence. simpl fold_left.
    fold (run_sequence runs
            (snd (check_and_process_new_problems st now discovery))).
    specialize (IH (snd (check_and_process_new_problems st now discovery))).
    cbv zeta in IH. destruct IH as [I1 [I2 [I3 [I4 [I5 [I6 I7]]]]]].
    pose proof (run_delta st now discovery) as H. cbv zeta in H.
    simpl length. simpl filter. simpl map. simpl list_sum.
    unfold finds_nothing at 1, discovered at 1. cbn [snd].
    destruct discovery as [[|item items]|e].
    + destruct H as [[[Ht [Hs [Hf [Hp Hq]]]] _] _].
      simpl length. repeat split; lia.
    + destruct H as [[_ H] _].
      pose proof (successes_failures (item :: items)) as Hsf.
      destruct (failures (item :: items) =? 0)%nat eqn:Hz.
      * apply Nat.eqb_eq in Hz.
        destruct H as [[Ht [Hs [Hf [Hp Hq]]]] _].
        repeat split; lia.
      * destruct H as [[Ht [Hs [Hf [Hp Hq]]]] _].
        repeat split; lia.
    + destruct H as [[[Ht [Hs [Hf [Hp Hq]]]] _] _].
      simpl length. repeat split; lia.
Qed.

(** After any sequence of runs of a new service, total_runs is the number
    of the runs; every run is counted once, as successful or as failed,
    except the runs whose discovery returned no item, which are counted as
    neither; and problems_solved and problems_failed add up to the number of
    items that the discoveries returned. *)
Theorem accounting_of_runs :
  forall (U : Unicode) (E : SymPy) (runs : list run),
    let s := st_stats (run_sequence runs initial_state) in
    total_runs s = length runs
    /\ successful_runs s + failed_runs s + length (filter finds_nothing runs)
       = total_runs s
    /\ problems_solved s + problems_failed s = list_sum (map discovered runs).
Proof.
  intros U E runs s. subst s.
  destruct (run_sequence_accounting runs initial_state)
    as [H1 [H2 [H3 _]]].
  cbv zeta in *. simpl in H1, H2, H3. repeat split; lia.
Qed.

(** No run makes a counter of the statistics smaller. *)
Theorem counters_never_decrease :
  forall (U : Unicode) (E : SymPy) (runs : list run) (st : state),
    let s := st_stats st in
    let s' := st_stats (run_sequence runs st) in
    total_runs s <= total_runs s'
    /\ successful_runs s <= successful_runs s'
    /\ failed_runs s <= failed_runs s'
    /\ problems_solved s <= problems_solved s'
    /\ problems_failed s <= problems_failed s'.
Proof.
  intros U E runs st s s'. subst s s'.
  destruct (run_sequence_accounting runs st) as [H1 [_ [_ [H4 [H5 [H6 H7]]]]]].
  cbv zeta in *. repeat split; try assumption. lia.
Qed.

(** ** The callbacks *)

Definition has_key (cbs : list (string * list callback)) (event_type : string)
  : bool :=
  existsb (fun kv => String.eqb (fst kv) event_type) cbs.

Lemma callbacks_get_set (cbs : list (string * list callback))
  (ev ev' : string) (v : list callback) :
  callbacks_get (callbacks_set cbs ev v) ev' =
  if String.eqb ev ev' && has_key cbs ev then v else callbacks_get cbs ev'.
Proof.
  induction cbs as [|[k v0] cbs IH]; simpl.
  - rewrite andb_false_r. reflexivity.
  - destruct (String.eqb k ev) eqn:Hk; simpl.
    + apply String.eqb_eq in Hk. subst k. rewrite andb_true_r.
      destruct (String.eqb ev ev'); reflexivity.
    + destruct (String.eqb k ev') eqn:Hk'.
      * apply String.eqb_eq in Hk'. subst k.
        rewrite String.eqb_sym, Hk. reflexivity.
      * exact IH.
Qed.

Lemma has_key_set (cbs : list (string * list callback)) (ev ev' : string)
  (v : list callback) :
  has_key (callbacks_set cbs ev v) ev' = has_key cbs ev'.
Proof.
  unfold has_key. induction cbs as [|[k v0] cbs IH]; simpl; [reflexivity|].
  destruct (String.eqb k ev); simpl; [reflexivity|].
  rewrite IH. reflexivity.
Qed.

Lemma add_callback_get (st : state) (ev ev' : string) (cb : callback) :
  callbacks_get (st_callbacks (add_callback ev cb st)) ev' =
  callbacks_get (st_callbacks st) ev'
  ++ (if String.eqb ev ev' && has_key (st_callbacks st) ev then [cb] else []).
Proof.
  unfold add_callback. fold (has_key (st_callbacks st) ev).
  destruct (has_key (st_callbacks st) ev) eqn:Hk; simpl.
  - rewrite callbacks_get_set, Hk, andb_true_r.
    destruct (String.eqb ev ev') eqn:He; [|rewrite app_nil_r; reflexivity].
    apply String.eqb_eq in He. subst. reflexivity.
  - rewrite andb_false_r, app_nil_r. reflexivity.
Qed.

Lemma add_callback_has_key (st : state) (ev ev' : string) (cb : callback) :
  has_key (st_callbacks (add_callback ev cb st)) ev' =
  has_key (st_callbacks st) ev'.
Proof.
  unfold add_callback. fold (has_key (st_callbacks st) ev).
  destruct (has_key (st_callbacks st) ev); simpl; [|reflexivity].
  apply has_key_set.
Qed.

(** Registrations one after the other. *)
Definition register (regs : list (string * callback)) (st : state) : state :=
  fold_left (fun st r => add_callback (fst r) (snd r) st) regs st.

Lemma register_get (regs : list (string * callback)) :
  forall (st : state) (ev : string),
    callbacks_get (st_callbacks (register regs st)) ev =
    callbacks_get (st_callbacks st) ev
    ++ (if has_key (st_callbacks st) ev
        then map snd (filter (fun r => String.eqb (fst r) ev) regs)
        else [])
    /\ st_stats (register regs st) = st_stats st
    /\ st_calls (register regs st) = st_calls st.
Proof.
  induction regs as [|[ev0 cb] regs IH]; intros st ev.
  - simpl. destruct (has_key (st_callbacks st) ev); rewrite app_nil_r; auto.
  - unfold register. simpl fold_left. fold (register regs (add_callback ev0 cb st)).
    destruct (IH (add_callback ev0 cb st) ev) as [Hg [Hs Hc]].
    rewrite Hg, Hs, Hc, add_callback_get, add_callback_has_key. cbn [fst snd filter].
    split; [|split].
    + destruct (String.eqb ev0 ev) eqn:He.
      * apply String.eqb_eq in He. subst ev0. rewrite andb_true_l.
        destruct (has_key (st_callbacks st) ev); simpl;
          rewrite <- app_assoc; reflexivity.
      * rewrite andb_false_l, app_nil_r. reflexivity.
    + unfold add_callback. destruct (existsb _ _); reflexivity.
    + unfold add_callback. destruct (existsb _ _); reflexivity.
Qed.

(** After any registrations on a new service, the callbacks of each of the
    three events are the ones registered for it, in the order of their
    registration; a registration for another event name is dropped, and no
    registration touches the statistics or calls a callback. *)
Theorem registry_after_registrations :
  forall (regs : list (string * callback)) (ev : string),
    let st := register regs initial_state in
    callbacks_get (st_callbacks st) ev =
      (if in_strings ev ["on_new_problem"; "on_solution_complete"; "on_error"]
       then map snd (filter (fun r => String.eqb (fst r) ev) regs)
       else [])
    /\ st_stats st = initial_stats
    /\ st_calls st = [].
Proof.
  intros regs ev st. subst st.
  destruct (register_get regs initial_state ev) as [Hg [Hs Hc]].
  split; [|split; assumption].
  rewrite Hg. unfold initial_state, has_key, in_strings.
  cbn [st_callbacks callbacks_get existsb fst].
  rewrite !(String.eqb_sym ev).
  destruct (String.eqb "on_new_problem" ev);
    destruct (String.eqb "on_solution_complete" ev);
    destruct (String.eqb "on_error" ev); reflexivity.
Qed.

Definition named_item (item : file_info * item_world) : bool :=
  match fi_name (fst item) with
  | Some _ => true
  | None => false
  end.

Lemma item_calls_on_new_problem {U : Unicode} {E : SymPy}
  (cbs : list (string * list callback)) (item : file_info * item_world)
  (cb : callback) :
  calls_of "on_new_problem" cb (item_calls cbs item) =
  if named_item item
  then count_occ Nat.eq_dec (callbacks_get cbs "on_new_problem") cb
  else 0.
Proof.
  unfold item_calls, named_item. rewrite calls_of_app.
  destruct (fi_name (fst item)), (r_success (result_of item));
    rewrite ?calls_of_calls_for; simpl; lia.
Qed.

Lemma calls_of_items {U : Unicode} {E : SymPy}
  (cbs : list (string * list callback)) (cb : callback)
  (items : list (file_info * item_world)) :
  calls_of "on_error" cb (flat_map (item_calls cbs) items) =
    failures items * count_occ Nat.eq_dec (callbacks_get cbs "on_error") cb
  /\ calls_of "on_solution_complete" cb (flat_map (item_calls cbs) items) =
       successes items
       * count_occ Nat.eq_dec (callbacks_get cbs "on_solution_complete") cb
  /\ calls_of "on_new_problem" cb (flat_map (item_calls cbs) items) =
       length (filter named_item items)
       * count_occ Nat.eq_dec (callbacks_get cbs "on_new_problem") cb.
Proof.
  induction items as [|item items [IH1 [IH2 IH3]]]; [repeat split|].
  simpl flat_map. rewrite !calls_of_app, IH1, IH2, IH3.
  rewrite item_calls_on_error, item_calls_on_solution_complete,
          item_calls_on_new_problem.
  rewrite successes_cons, failures_cons. simpl filter.
  destruct (r_success (result_of item)), (named_item item); simpl; repeat split; lia.
Qed.

(** The calls of the callbacks in a run: each callback registered for
    on_error is called once for every item that fails, each one registered
    for on_solution_complete once for every item that succeeds, each one
    registered for on_new_problem once for every item whose name can be
    read; the registry is left as it was.  When discovery raises no
    callback is called. *)
Theorem callbacks_of_a_run :
  forall (U : Unicode) (E : SymPy) (st : state) (now : time)
         (discovery : outcome (list (file_info * item_world)))
         (cb : callback),
    let st' := snd (check_and_process_new_problems st now discovery) in
    let registered ev := count_occ Nat.eq_dec
                           (callbacks_get (st_callbacks st) ev) cb in
    st_callbacks st' = st_callbacks st
    /\ (forall e, discovery = Raise e -> st_calls st' = st_calls st)
    /\ (forall items, discovery = Ret items ->
          calls_of "on_error" cb (st_calls st') =
            calls_of "on_error" cb (st_calls st)
            + failures items * registered "on_error"
          /\ calls_of "on_solution_complete" cb (st_calls st') =
               calls_of "on_solution_complete" cb (st_calls st)
               + successes items * registered "on_solution_complete"
          /\ calls_of "on_new_problem" cb (st_calls st') =
               calls_of "on_new_problem" cb (st_calls st)
               + length (filter named_item items)
                 * registered "on_new_problem").
Proof.
  intros U E st now discovery cb st' registered. subst st' registered.
  destruct discovery as [[|item items]|e].
  - simpl. split; [reflexivity|]. split; [reflexivity|].
    intros items Hi. inversion Hi; subst. simpl.
    change (failures []) with 0. change (successes []) with 0.
    repeat split; lia.
  - rewrite run_spec by discriminate. cbn [snd].
    assert (Hc : forall f (s : state), st_calls (with_stats f s) = st_calls s)
      by reflexivity.
    assert (Hb : forall f (s : state),
               st_callbacks (with_stats f s) = st_callbacks s)
      by reflexivity.
    rewrite Hc, Hb. unfold loop_state. cbn [st_calls st_callbacks].
    rewrite Hc, Hb.
    split; [reflexivity|]. split; [intros e H; discriminate H|].
    intros items' Hi. inversion Hi; subst. clear Hi.
    rewrite !calls_of_app.
    destruct (calls_of_items (st_callbacks st) cb (item :: items))
      as [H1 [H2 H3]].
    rewrite H1, H2, H3. repeat split.
  - simpl. split; [reflexivity|]. split; [reflexivity|].
    intros items Hi. discriminate Hi.
Qed.

Lemma callbacks_of_a_run_witness :
  let items :=
    [ (named "a.exe", all_well exe_file);
      (named "b.exe", all_well exe_file);
      (named "p.txt", all_well (text_file (str "Solve x^2 - 4 = 0"))) ] in
  let st' := snd (check_and_process_new_problems (E := sympy_solves)
                    observed_state 7%N (Ret items)) in
  calls_of "on_error" 3 (st_calls st') = 2
  /\ calls_of "on_solution_complete" 2 (st_calls st') = 1
  /\ calls_of "on_new_problem" 1 (st_calls st') = 3.
Proof.
  intros items st'.
  destruct (callbacks_of_a_run ascii_tables sympy_solves observed_state 7%N
              (Ret items) 3) as [_ [_ H3]].
  destruct (callbacks_of_a_run ascii_tables sympy_solves observed_state 7%N
              (Ret items) 2) as [_ [_ H2]].
  destruct (callbacks_of_a_run ascii_tables sympy_solves observed_state 7%N
              (Ret items) 1) as [_ [_ H1]].
  destruct (H3 items eq_refl) as [He _].
  destruct (H2 items eq_refl) as [_ [Hs _]].
  destruct (H1 items eq_refl) as [_ [_ Hn]].
  subst st'. rewrite He, Hs, Hn. vm_compute. repeat split.
Defined.

(** ** The summary *)

(** The summary of a run is consistent: with success, processed and errors
    add up to new_files, and the results, when the summary has them, are as
    many; without success, the summary has the error of the discovery, no
    result, new_files 0, processed 0 and errors 1. *)
Theorem summary_is_consistent :
  forall (U : Unicode) (E : SymPy) (st : state) (now : time)
         (discovery : outcome (list (file_info * item_world))),
    let sm := fst (check_and_process_new_problems st now discovery) in
    (s_success sm = true ->
     s_processed sm + s_errors sm = s_new_files sm
     /\ s_error sm = None
     /\ forall rs, s_results sm = Some rs -> length rs = s_new_files sm)
    /\ (s_success sm = false ->
        s_new_files sm = 0 /\ s_processed sm = 0 /\ s_errors sm = 1
        /\ s_results sm = None
        /\ exists e, discovery = Raise e /\ s_error sm = Some e).
Proof.
  intros U E st now discovery sm. subst sm.
  destruct discovery as [[|item items]|e].
  - simpl. split; [|discriminate].
    intros _. repeat split. intros rs H. discriminate H.
  - rewrite run_spec by discriminate. cbn [fst]. simpl.
    split; [|discriminate].
    intros _. split; [|split; [reflexivity|]].
    + pose proof (successes_failures (item :: items)) as H. simpl in H. exact H.
    + intros rs H. inversion H. simpl. rewrite length_map. reflexivity.
  - simpl. split; [discriminate|].
    intros _. repeat split. exists e. split; reflexivity.
Qed.

Lemma summary_is_consistent_witness :
  let sm := fst (check_and_process_new_problems (E := sympy_solves)
                   initial_state 7%N (Raise "rate limit")) in
  s_errors sm = 1 /\ s_new_files sm = 0.
Proof.
  intros sm.
  destruct (summary_is_consistent ascii_tables sympy_solves initial_state 7%N
              (Raise "rate limit")) as [_ H].
  destruct H as [H1 [_ [H3 _]]]; [reflexivity|].
  split; [exact H3 | exact H1].
Defined.

(** ** The control state *)




(* ===================================================================== *)
(** * Properties of discovery *)
(* ===================================================================== *)

(** The test that the loop makes on a file of a commit. *)
Definition accepted (suffix_lower : text -> text) (cfg : GitHub.settings)
  (file : GitHub.commit_file) : bool :=
  GitHub.startswith (GitHub.cf_filename file)
    (GitHub.upload_folder cfg ++ str "/")
  && GitHub.in_texts (GitHub.cf_status file) [str "added"; str "modified"]
  && GitHub._is_supported_format suffix_lower cfg (GitHub.cf_filename file).

(** The entry of an accepted file. *)
Definition entry (cfg : GitHub.settings) (c : GitHub.commit)
  (file : GitHub.commit_file) : GitHub.new_file :=
  {| GitHub.nf_path := GitHub.cf_filename file;
     GitHub.nf_name := GitHub.basename (GitHub.cf_filename file);
     GitHub.nf_sha := GitHub.c_sha c;
     GitHub.nf_commit_date := GitHub.c_date c;
     GitHub.nf_size := GitHub.cf_additions file + GitHub.cf_deletions file;
     GitHub.nf_download_url :=
       GitHub._get_download_url cfg (GitHub.cf_filename file) |}.

(** The time that discovery looks from. *)
Definition looks_from (last_check_time since_time : option time)
  (now_start : time) : time :=
  match since_time, last_check_time with
  | Some s, _ => s
  | None, Some l => l
  | None, None => now_start
  end.

Lemma files_loop_spec (suffix_lower : text -> text) (cfg : GitHub.settings)
  (c : GitHub.commit) (files : list GitHub.commit_file) :
  forall acc : list GitHub.new_file,
    GitHub.files_loop suffix_lower cfg c files acc =
    acc ++ map (entry cfg c) (filter (accepted suffix_lower cfg) files).
Proof.
  induction files as [|file files IH]; intros acc.
  - simpl. rewrite app_nil_r. reflexivity.
  - cbn [GitHub.files_loop filter]. cbv zeta. unfold accepted at 1.
    destruct (GitHub.startswith (GitHub.cf_filename file)
                (GitHub.upload_folder cfg ++ str "/")); cbn [andb];
      [|apply IH].
    destruct (GitHub.in_texts (GitHub.cf_status file)
                [str "added"; str "modified"]); cbn [andb]; [|apply IH].
    destruct (GitHub._is_supported_format suffix_lower cfg
                (GitHub.cf_filename file)); [|apply IH].
    rewrite IH. cbn [map]. rewrite <- app_assoc. reflexivity.
Qed.

Lemma commits_loop_spec (suffix_lower : text -> text) (cfg : GitHub.settings)
  (commits : list GitHub.commit) :
  forall acc : list GitHub.new_file,
    GitHub.commits_loop suffix_lower cfg commits acc =
    acc ++ flat_map
             (fun c => map (entry cfg c)
                         (filter (accepted suffix_lower cfg) (GitHub.c_files c)))
             commits.
Proof.
  induction commits as [|c commits IH]; intros acc; simpl.
  - rewrite app_nil_r. reflexivity.
  - rewrite IH, files_loop_spec, <- app_assoc. reflexivity.
Qed.

Lemma basename_no_slash (p : text) : ~ In 47%N (GitHub.basename p).
Proof.
  induction p as [|c p IH]; simpl; [tauto|].
  destruct (existsb (char_eqb 47%N) p) eqn:Hp; [exact IH|].
  assert (Hno : ~ In 47%N p).
  { intros Hin.
    assert (existsb (char_eqb 47%N) p = true).
    { apply existsb_exists. exists 47%N. split; [exact Hin|].
      unfold char_eqb. apply N.eqb_refl. }
    congruence. }
  unfold char_eqb in *. destruct (N.eqb c 47) eqn:Hc; [exact Hno|].
  apply N.eqb_neq in Hc. intros [H|H]; [congruence | contradiction].
Qed.

Lemma basename_is_suffix (p : text) :
  exists dir : text, p = dir ++ GitHub.basename p.
Proof.
  induction p as [|c p [dir IH]]; simpl; [exists []; reflexivity|].
  destruct (existsb (char_eqb 47%N) p).
  - exists (c :: dir). simpl. rewrite <- IH. reflexivity.
  - destruct (char_eqb c 47%N); [exists [c] | exists []]; reflexivity.
Qed.

(** When the API answers with commits, discovery returns one entry for
    every file of every commit that lies in the upload folder, was added or
    modified and has a supported format, in the order of the commits and of
    their files, and nothing else.  A file that several commits touch gets
    one entry for each of them.  The name of an entry is the last component
    of its path and has no '/'. *)
Theorem discovery_returns_the_accepted_files :
  forall (suffix_lower : text -> text) (cfg : GitHub.settings)
         (last_check_time since_time : option time) (now_start now_end : time)
         (api : time -> outcome (list GitHub.commit))
         (commits : list GitHub.commit),
    api (looks_from last_check_time since_time now_start) = Ret commits ->
    exists new_files : list GitHub.new_file,
      fst (GitHub.get_new_files_since suffix_lower cfg last_check_time
             since_time now_start now_end api) = Ret new_files
      /\ new_files =
           flat_map
             (fun c => map (entry cfg c)
                         (filter (accepted suffix_lower cfg) (GitHub.c_files c)))
             commits
      /\ map GitHub.nf_path new_files =
           map GitHub.cf_filename
             (filter (accepted suffix_lower cfg)
                (flat_map GitHub.c_files commits))
      /\ Forall (fun e =>
                   GitHub.startswith (GitHub.nf_path e)
                     (GitHub.upload_folder cfg ++ str "/") = true
                   /\ GitHub.in_texts (suffix_lower (GitHub.nf_path e))
                        (GitHub.supported_formats cfg) = true
                   /\ ~ In 47%N (GitHub.nf_name e)
                   /\ exists dir, GitHub.nf_path e = dir ++ GitHub.nf_name e)
           new_files.
Proof.
  intros suffix_lower cfg last_check_time since_time now_start now_end api
         commits Hapi.
  eexists. split; [|split; [reflexivity|split]].
  - unfold GitHub.get_new_files_since.
    change (match since_time with
            | Some s => s
            | None => match last_check_time with
                      | Some l => l
                      | None => now_start
                      end
            end) with (looks_from last_check_time since_time now_start).
    rewrite Hapi. cbn [fst]. rewrite commits_loop_spec. reflexivity.
  - clear Hapi. induction commits as [|c commits IH]; [reflexivity|].
    simpl. rewrite filter_app, !map_app, IH. f_equal.
    rewrite map_map. reflexivity.
  - apply Forall_forall. intros e He.
    apply in_flat_map in He. destruct He as [c [_ He]].
    apply in_map_iff in He. destruct He as [file [<- Hf]].
    apply filter_In in Hf. destruct Hf as [_ Hacc].
    unfold accepted in Hacc.
    apply andb_true_iff in Hacc. destruct Hacc as [Hacc H3].
    apply andb_true_iff in Hacc. destruct Hacc as [H1 H2].
    simpl. repeat split; try assumption.
    + apply basename_no_slash.
    + apply basename_is_suffix.
Qed.

(** Two commits that change the same problem, one that removes a file and
    one outside the upload folder. *)
Lemma discovery_returns_the_accepted_files_witness :
  let cfg := {| GitHub.repo_name := str "owner/repo";
                GitHub.upload_folder := str "uploads";
                GitHub.supported_formats := [str ".txt"; str ".pdf"] |} in
  let file name status :=
    {| GitHub.cf_filename := str name; GitHub.cf_status := str status;
       GitHub.cf_additions := 3; GitHub.cf_deletions := 1 |} in
  let commits :=
    [ {| GitHub.c_sha := str "c2"; GitHub.c_date := 20%N;
         GitHub.c_files := [file "uploads/p.TXT" "modified";
                            file "uploads/old.txt" "removed"] |};
      {| GitHub.c_sha := str "c1"; GitHub.c_date := 10%N;
         GitHub.c_files := [file "uploads/p.TXT" "added";
                            file "README.md" "modified";
                            file "uploads/notes.docx" "added"] |} ] in
  exists new_files,
    fst (GitHub.get_new_files_since GitHub.ascii_suffix_lower cfg None None
           30%N 31%N (fun _ => Ret commits)) = Ret new_files
    /\ map GitHub.nf_path new_files = [str "uploads/p.TXT"; str "uploads/p.TXT"]
    /\ map GitHub.nf_name new_files = [str "p.TXT"; str "p.TXT"].
Proof.
  intros cfg file commits.
  destruct (@discovery_returns_the_accepted_files GitHub.ascii_suffix_lower cfg
              None None 30%N 31%N (fun _ => Ret commits) commits eq_refl)
    as [new_files [Hr [Hl _]]].
  exists new_files. split; [exact Hr|].
  rewrite Hl. split; vm_compute; reflexivity.
Defined.

Lemma watermark_of_one_discovery (suffix_lower : text -> text)
  (cfg : GitHub.settings) (last_check_time since_time : option time)
  (now_start now_end : time) (api : time -> outcome (list GitHub.commit)) :
  snd (GitHub.get_new_files_since suffix_lower cfg last_check_time since_time
         now_start now_end api) =
  match api (looks_from last_check_time since_time now_start) with
  | Ret _ => Some now_end
  | Raise _ => last_check_time
  end.
Proof.
  unfold GitHub.get_new_files_since.
  change (match since_time with
          | Some s => s
          | None => match last_check_time with
                    | Some l => l
                    | None => now_start
                    end
          end) with (looks_from last_check_time since_time now_start).
  destruct (api (looks_from last_check_time since_time now_start));
    reflexivity.
Qed.

(** A poll: the clock at its start and at its end, and the API during it. *)
Definition poll := (time * time * (time -> outcome (list GitHub.commit)))%type.

Definition poll_end (p : poll) : time := snd (fst p).

(** The watermark [last_check_time] after polls without a time of their
    own, one after the other. *)
Definition poll_sequence (suffix_lower : text -> text) (cfg : GitHub.settings)
  (polls : list poll) (last_check_time : option time) : option time :=
  fold_left
    (fun w p =>
       snd (GitHub.get_new_files_since suffix_lower cfg w None
              (fst (fst p)) (snd (fst p)) (snd p)))
    polls last_check_time.

Lemma poll_sequence_app (suffix_lower : text -> text) (cfg : GitHub.settings)
  (ps qs : list poll) (w : option time) :
  poll_sequence suffix_lower cfg (ps ++ qs) w =
  poll_sequence suffix_lower cfg qs (poll_sequence suffix_lower cfg ps w).
Proof. unfold poll_sequence. apply fold_left_app. Qed.

(** The watermark that discovery looks from moves only to the end of a poll
    whose listing succeeded.  Polls that raise leave it where it was, so
    the next poll looks from the same time again; after a poll whose
    listing succeeds the watermark is the clock at the end of that poll. *)
Theorem watermark_follows_successful_polls :
  forall (suffix_lower : text -> text) (cfg : GitHub.settings)
         (polls : list poll) (w : option time),
    let w' := poll_sequence suffix_lower cfg polls w in
    (w' = w
     \/ exists p since commits,
          In p polls /\ snd p since = Ret commits /\ w' = Some (poll_end p))
    /\ ((forall p since, In p polls -> exists e, snd p since = Raise e) ->
        w' = w)
    /\ (forall before p,
          polls = before ++ [p] ->
          (forall since, exists commits, snd p since = Ret commits) ->
          w' = Some (poll_end p)).
Proof.
  intros suffix_lower cfg polls w w'. subst w'.
  split; [|split].
  - revert w. induction polls as [|p polls IH]; intros w; [left; reflexivity|].
    unfold poll_sequence. simpl fold_left.
    fold (poll_sequence suffix_lower cfg polls).
    rewrite watermark_of_one_discovery.
    destruct (snd p (looks_from w None (fst (fst p)))) as [commits|e] eqn:Hp.
    + destruct (IH (Some (snd (fst p)))) as [H|[q [since [cs [Hq [Hs Hw]]]]]].
      * right. exists p, (looks_from w None (fst (fst p))), commits.
        split; [left; reflexivity|]. split; [exact Hp | exact H].
      * right. exists q, since, cs. split; [right; exact Hq|]. auto.
    + destruct (IH w) as [H|[q [since [cs [Hq [Hs Hw]]]]]].
      * left. exact H.
      * right. exists q, since, cs. split; [right; exact Hq|]. auto.
  - revert w. induction polls as [|p polls IH]; intros w Hall; [reflexivity|].
    unfold poll_sequence. simpl fold_left.
    fold (poll_sequence suffix_lower cfg polls).
    rewrite watermark_of_one_discovery.
    destruct (Hall p (looks_from w None (fst (fst p))) (or_introl eq_refl))
      as [e ->].
    apply IH. intros q since Hq. apply Hall. right. exact Hq.
  - intros before p -> Hp. rewrite poll_sequence_app.
    unfold poll_sequence at 1. simpl fold_left.
    rewrite watermark_of_one_discovery.
    destruct (Hp (looks_from (poll_sequence suffix_lower cfg before w) None
                    (fst (fst p)))) as [commits ->].
    reflexivity.
Qed.

(** A poll that succeeds at time 11, then two that raise. *)
Lemma watermark_follows_successful_polls_witness :
  let cfg := {| GitHub.repo_name := str "owner/repo";
                GitHub.upload_folder := str "uploads";
                GitHub.supported_formats := [str ".txt"] |} in
  poll_sequence GitHub.ascii_suffix_lower cfg
    [ (40%N, 41%N, fun _ => Raise "rate limit");
      (50%N, 51%N, fun _ => Raise "rate limit") ] (Some 11%N) = Some 11%N
  /\ poll_sequence GitHub.ascii_suffix_lower cfg
       [ (40%N, 41%N, fun _ => Raise "rate limit");
         (50%N, 51%N, fun _ => Ret []) ] (Some 11%N) = Some 51%N.
Proof.
  intros cfg. split.
  - apply (watermark_follows_successful_polls GitHub.ascii_suffix_lower cfg
             [ (40%N, 41%N, fun _ => Raise "rate limit");
               (50%N, 51%N, fun _ => Raise "rate limit") ] (Some 11%N)).
    intros p since [<-|[<-|[]]]; exists "rate limit"; reflexivity.
  - refine (proj2 (proj2
             (watermark_follows_successful_polls GitHub.ascii_suffix_lower cfg
                [ (40%N, 41%N, fun _ => Raise "rate limit");
                  (50%N, 51%N, fun _ => Ret []) ] (Some 11%N)))
             [ (40%N, 41%N, fun _ => Raise "rate limit") ]
             (50%N, 51%N, fun _ => Ret []) _ _).
    + reflexivity.
    + intros since. exists []. reflexivity.
Defined.

(* ===================================================================== *)
(** * Properties of the configuration *)
(* ===================================================================== *)

Import Config.

Lemma bind_ok (A B : Type) (r : result A) (k : A -> result B) (b : B) :
  bind r k = Ok b -> exists a, r = Ok a /\ k a = Ok b.
Proof.
  destruct r as [a|e]; simpl; [|discriminate].
  intros H. exists a. split; [reflexivity | exact H].
Qed.

Lemma getitem_ok (c : value) (k : string) (v : value) :
  getitem c k = Ok v -> exists d, c = VDict d /\ dict_get d k = Some v.
Proof.
  destruct c; simpl; try discriminate.
  destruct (dict_get d k) eqn:Hd; [|discriminate].
  intros H. inversion H; subst. exists d. split; [reflexivity | exact Hd].
Qed.

Lemma py_get_ok (c : value) (k : string) (default v : value) :
  py_get c k default = Ok v ->
  exists d, c = VDict d
            /\ v = match dict_get d k with Some x => x | None => default end.
Proof.
  destruct c; simpl; try discriminate.
  intros H. inversion H; subst. exists d. split; reflexivity.
Qed.

Lemma sections_loop_ok (sections : list string) (c : value) :
  sections_loop sections c = Ok tt ->
  forall s, In s sections -> py_in s c = Ok true.
Proof.
  induction sections as [|section rest IH]; simpl; intros H s Hs;
    [contradiction|].
  apply bind_ok in H. destruct H as [present [Hp H]].
  destruct present; simpl in H; [|discriminate].
  destruct Hs as [<-|Hs]; [exact Hp | apply IH; assumption].
Qed.

Lemma github_keys_loop_ok (keys : list string) (g : list (string * value)) :
  github_keys_loop keys (VDict g) = Ok tt ->
  forall k, In k keys -> exists v, dict_get g k = Some v /\ truthy v = true.
Proof.
  induction keys as [|key rest IH]; simpl; intros H k Hk; [contradiction|].
  destruct (dict_get g key) as [v|] eqn:Hg; simpl in H; [|discriminate].
  destruct (truthy v) eqn:Ht; simpl in H; [|discriminate].
  destruct Hk as [<-|Hk]; [exists v; auto | apply IH; assumption].
Qed.

Lemma github_keys_loop_dict (keys : list string) (g : value) :
  keys <> [] -> github_keys_loop keys g = Ok tt -> exists d, g = VDict d.
Proof.
  destruct keys as [|key rest]; [contradiction|]. intros _. simpl.
  intros H. apply bind_ok in H. destruct H as [v [Hv _]].
  apply py_get_ok in Hv. destruct Hv as [d [Hd _]]. exists d. exact Hd.
Qed.

(** A value is positive: a number above 0, or True. *)
Definition positive (v : value) : Prop := le_zero v = Ok false.

(** The structure of a validated configuration. *)
Definition well_formed (c : value) : Prop :=
  exists d g sch em m sec,
    c = VDict d
    /\ (forall s, In s required_sections -> dict_get d s <> None)
    /\ dict_get d "github" = Some (VDict g)
    /\ (forall k, In k required_github_keys ->
                  exists v, dict_get g k = Some v /\ truthy v = true)
    /\ dict_get d "scheduler" = Some (VDict sch)
    /\ (exists v, dict_get sch "check_interval_minutes" = Some v /\ positive v)
    /\ dict_get d "email" = Some (VDict em)
    /\ dict_get d "math_solver" = Some (VDict m)
    /\ (exists v, dict_get m "supported_formats" = Some v /\ truthy v = true)
    /\ dict_get d "security" = Some (VDict sec)
    /\ (exists v, dict_get sec "max_file_size_mb" = Some v /\ positive v).

Lemma validate_inv (c : value) :
  _validate_config c = Ok tt -> well_formed c.
Proof.
  unfold _validate_config. intros H.
  apply bind_ok in H. destruct H as [[] [Hsec H]].
  apply bind_ok in H. destruct H as [gc [Hg H]].
  apply getitem_ok in Hg. destruct Hg as [d [-> Hg]].
  apply bind_ok in H. destruct H as [[] [Hkeys H]].
  destruct (@github_keys_loop_dict required_github_keys gc) as [g ->];
    [discriminate | exact Hkeys |].
  apply bind_ok in H. destruct H as [sc [Hsc H]].
  apply getitem_ok in Hsc. destruct Hsc as [d' [Hd' Hsc]].
  inversion Hd'; subst d'. clear Hd'.
  apply bind_ok in H. destruct H as [interval [Hi H]].
  apply py_get_ok in Hi. destruct Hi as [sch [-> Hi]].
  apply bind_ok in H. destruct H as [bad [Hbad H]].
  destruct bad; [discriminate|].
  apply bind_ok in H. destruct H as [ec [Hec H]].
  apply getitem_ok in Hec. destruct Hec as [d' [Hd' Hec]].
  inversion Hd'; subst d'. clear Hd'.
  apply bind_ok in H. destruct H as [smtp [Hsmtp H]].
  apply py_get_ok in Hsmtp. destruct Hsmtp as [em [-> _]].
  apply bind_ok in H. destruct H as [mc [Hmc H]].
  apply getitem_ok in Hmc. destruct Hmc as [d' [Hd' Hmc]].
  inversion Hd'; subst d'. clear Hd'.
  apply bind_ok in H. destruct H as [formats [Hf H]].
  apply py_get_ok in Hf. destruct Hf as [m [-> Hf]].
  destruct (truthy formats) eqn:Htf; cbn [negb] in H; [|discriminate H].
  apply bind_ok in H. destruct H as [secc [Hsecc H]].
  apply getitem_ok in Hsecc. destruct Hsecc as [d' [Hd' Hsecc]].
  inversion Hd'; subst d'. clear Hd'.
  apply bind_ok in H. destruct H as [max_size [Hms H]].
  apply py_get_ok in Hms. destruct Hms as [sec [-> Hms]].
  apply bind_ok in H. destruct H as [bad [Hbad' H]].
  destruct bad; [discriminate|].
  exists d, g, sch, em, m, sec.
  split; [reflexivity|]. split.
  { intros s Hs. pose proof (@sections_loop_ok _ _ Hsec s Hs) as Hp.
    simpl in Hp. destruct (dict_get d s); [discriminate | discriminate Hp]. }
  split; [exact Hg|]. split.
  { apply github_keys_loop_ok. exact Hkeys. }
  split; [exact Hsc|]. split.
  { destruct (dict_get sch "check_interval_minutes") as [v|].
    - exists v. subst interval. split; [reflexivity | exact Hbad].
    - subst interval. simpl in Hbad. discriminate Hbad. }
  split; [exact Hec|]. split; [exact Hmc|]. split.
  { destruct (dict_get m "supported_formats") as [v|].
    - exists v. subst formats. split; [reflexivity | exact Htf].
    - subst formats. simpl in Htf. discriminate Htf. }
  split; [exact Hsecc|].
  destruct (dict_get sec "max_file_size_mb") as [v|].
  - exists v. subst max_size. split; [reflexivity | exact Hbad'].
  - subst max_size. simpl in Hbad'. discriminate Hbad'.
Qed.


(** A configuration with what the validation requires and nothing more. *)
Definition minimal_config : value :=
  VDict
    [ ("github", VDict [ ("repository", VStr "owner/repo");
                          ("branch", VStr "main");
                          ("upload_folder", VStr "uploads");
                          ("solutions_folder", VStr "solutions") ]);
      ("scheduler", VDict [ ("check_interval_minutes", VNum 30) ]);
      ("email", VDict []);
      ("math_solver", VDict [ ("supported_formats",
                               VList [VStr ".txt"; VStr ".pdf"]) ]);
      ("logging", VNone);
      ("security", VDict [ ("max_file_size_mb", VNum 50) ]) ].




Lemma dict_get_set_same (d : list (string * value)) (k : string) (v : value) :
  dict_get (dict_set d k v) k = Some v.
Proof.
  induction d as [|[k' v'] d IH]; simpl.
  - rewrite String.eqb_refl. reflexivity.
  - destruct (String.eqb k' k) eqn:Hk; simpl; rewrite Hk; [reflexivity | exact IH].
Qed.

Lemma dict_get_set_other (d : list (string * value)) (k k' : string)
  (v : value) :
  k' <> k -> dict_get (dict_set d k v) k' = dict_get d k'.
Proof.
  intros Hne. induction d as [|[k0 v0] d IH]; simpl.
  - destruct (String.eqb k k') eqn:Hk; [|reflexivity].
    apply String.eqb_eq in Hk. congruence.
  - destruct (String.eqb k0 k) eqn:Hk; simpl.
    + apply String.eqb_eq in Hk. subst k0.
      destruct (String.eqb k k') eqn:Hk'; [|reflexivity].
      apply String.eqb_eq in Hk'. congruence.
    + rewrite IH. reflexivity.
Qed.



(* ===================================================================== *)
(** * Properties of loading the configuration *)
(* ===================================================================== *)

Lemma bind_ext (A B : Type) (r : result A) (k k' : A -> result B) :
  (forall a, k a = k' a) -> bind r k = bind r k'.
Proof. intros H. destruct r; simpl; [apply H | reflexivity]. Qed.

Lemma set_in_section_ok (c : value) (section key : string) (v c' : value) :
  set_in_section c section key v = Ok c' ->
  exists d sd,
    c = VDict d /\ dict_get d section = Some (VDict sd)
    /\ c' = VDict (dict_set d section (VDict (dict_set sd key v))).
Proof.
  unfold set_in_section. intros H.
  apply bind_ok in H. destruct H as [sc [Hsc H]].
  apply getitem_ok in Hsc. destruct Hsc as [d [-> Hsc]].
  apply bind_ok in H. destruct H as [sc' [Hsc' H]].
  destruct sc as [| | | | |sd]; simpl in Hsc'; try discriminate Hsc'.
  inversion Hsc'; subst sc'. simpl in H. inversion H; subst c'.
  exists d, sd. split; [reflexivity|]. split; [exact Hsc | reflexivity].
Qed.

Lemma flask_section_ok (c c' : value) :
  flask_section c = Ok c' ->
  c' = c
  \/ exists d, c = VDict d /\ dict_get d "flask" = None
               /\ c' = VDict (dict_set d "flask" (VDict [])).
Proof.
  unfold flask_section. intros H.
  apply bind_ok in H. destruct H as [present [Hp H]].
  destruct present; simpl in H.
  - inversion H. left. reflexivity.
  - destruct c as [| | | | |d]; simpl in H; try discriminate H.
    inversion H. right. exists d. split; [reflexivity|].
    simpl in Hp. destruct (dict_get d "flask"); [discriminate Hp|].
    split; reflexivity.
Qed.

(** ** The overrides and the validation *)

(** The keys that the validation reads in a section. *)
Definition validated_keys : list string :=
  required_github_keys
  ++ ["check_interval_minutes"; "smtp_server"; "supported_formats";
      "max_file_size_mb"].

(** Two values of a section between which the validation sees no
    difference. *)
Definition section_agrees (o o' : option value) : Prop :=
  o' = o
  \/ exists sd sd',
       o = Some (VDict sd) /\ o' = Some (VDict sd')
       /\ forall k, In k validated_keys -> dict_get sd' k = dict_get sd k.

Definition agree (c c' : value) : Prop :=
  c' = c
  \/ exists d d',
       c = VDict d /\ c' = VDict d'
       /\ forall s, In s required_sections ->
                    section_agrees (dict_get d s) (dict_get d' s).

Lemma section_agrees_trans (o1 o2 o3 : option value) :
  section_agrees o1 o2 -> section_agrees o2 o3 -> section_agrees o1 o3.
Proof.
  intros [E1|(a & a' & Ea & Ea' & Ha)] [E2|(b & b' & Eb & Eb' & Hb)].
  - left. congruence.
  - right. exists b, b'. subst. split; [reflexivity|].
    split; [reflexivity | exact Hb].
  - right. exists a, a'. subst. split; [reflexivity|].
    split; [reflexivity | exact Ha].
  - right. subst. inversion Eb; subst b. exists a, b'.
    split; [reflexivity|]. split; [reflexivity|].
    intros k Hk. rewrite (Hb k Hk). apply Ha. exact Hk.
Qed.

Lemma agree_trans (c1 c2 c3 : value) :
  agree c1 c2 -> agree c2 c3 -> agree c1 c3.
Proof.
  intros [E1|(a & a' & Ea & Ea' & Ha)] [E2|(b & b' & Eb & Eb' & Hb)].
  - left. congruence.
  - right. exists b, b'. subst. split; [reflexivity|].
    split; [reflexivity | exact Hb].
  - right. exists a, a'. subst. split; [reflexivity|].
    split; [reflexivity | exact Ha].
  - right. subst. inversion Eb; subst b. exists a, b'.
    split; [reflexivity|]. split; [reflexivity|].
    intros s Hs. eapply section_agrees_trans; [apply Ha | apply Hb]; exact Hs.
Qed.

Lemma set_in_section_agree (c : value) (section key : string) (v c' : value) :
  ~ In key validated_keys ->
  set_in_section c section key v = Ok c' -> agree c c'.
Proof.
  intros Hkey H. apply set_in_section_ok in H.
  destruct H as (d & sd & -> & Hsd & ->).
  right. exists d, (dict_set d section (VDict (dict_set sd key v))).
  split; [reflexivity|]. split; [reflexivity|]. intros s _.
  destruct (String.eqb s section) eqn:E.
  - apply String.eqb_eq in E. subst s. right.
    exists sd, (dict_set sd key v). rewrite dict_get_set_same.
    split; [exact Hsd|]. split; [reflexivity|].
    intros k Hk. apply dict_get_set_other. intros ->. apply Hkey. exact Hk.
  - apply String.eqb_neq in E. left. apply dict_get_set_other. exact E.
Qed.

Lemma flask_is_not_required : ~ In "flask" required_sections.
Proof.
  unfold required_sections. simpl.
  intros [H|[H|[H|[H|[H|[H|[]]]]]]]; discriminate H.
Qed.

Lemma flask_section_agree (c c' : value) :
  flask_section c = Ok c' -> agree c c'.
Proof.
  intros H. apply flask_section_ok in H.
  destruct H as [->|(d & -> & _ & ->)]; [left; reflexivity|].
  right. exists d, (dict_set d "flask" (VDict [])).
  split; [reflexivity|]. split; [reflexivity|]. intros s Hs.
  left. apply dict_get_set_other. intros ->.
  apply flask_is_not_required. exact Hs.
Qed.

Lemma overridden_keys_are_not_validated :
  forall k, In k ["token"; "sender_email"; "sender_password";
                  "environment"; "debug"] ->
            ~ In k validated_keys.
Proof.
  intros k Hk Hv. unfold validated_keys, required_github_keys in Hv.
  simpl in Hk, Hv.
  destruct Hk as [<-|[<-|[<-|[<-|[<-|[]]]]]];
    destruct Hv as [H|[H|[H|[H|[H|[H|[H|[H|[]]]]]]]]]; discriminate H.
Qed.

Lemma overrides_agree (getenv : string -> option string) (c c' : value) :
  _apply_env_overrides getenv c = Ok c' -> agree c c'.
Proof.
  unfold _apply_env_overrides. cbv zeta. intros H.
  apply bind_ok in H. destruct H as [c1 [H1 H]].
  apply bind_ok in H. destruct H as [c2 [H2 H]].
  apply bind_ok in H. destruct H as [c3 [H3 H]].
  apply bind_ok in H. destruct H as [c4 [H4 H]].
  apply bind_ok in H. destruct H as [c5 [H5 H]].
  inversion H; subst c5. clear H.
  assert (A1 : agree c c1).
  { destruct (env_truthy (getenv "GITHUB_TOKEN")).
    - eapply set_in_section_agree; [|exact H1].
      apply overridden_keys_are_not_validated. simpl. auto.
    - inversion H1. left. reflexivity. }
  assert (A2 : agree c1 c2).
  { destruct (env_truthy (getenv "EMAIL_SENDER")).
    - eapply set_in_section_agree; [|exact H2].
      apply overridden_keys_are_not_validated. simpl. auto.
    - inversion H2. left. reflexivity. }
  assert (A3 : agree c2 c3).
  { destruct (env_truthy (getenv "EMAIL_PASSWORD")).
    - eapply set_in_section_agree; [|exact H3].
      apply overridden_keys_are_not_validated. simpl. auto.
    - inversion H3. left. reflexivity. }
  assert (A4 : agree c3 c4).
  { destruct (env_truthy (getenv "FLASK_ENV")).
    - apply bind_ok in H4. destruct H4 as [c0 [Hf H4]].
      eapply agree_trans; [apply flask_section_agree; exact Hf|].
      eapply set_in_section_agree; [|exact H4].
      apply overridden_keys_are_not_validated. simpl. auto.
    - inversion H4. left. reflexivity. }
  assert (A5 : agree c4 c').
  { destruct (String.eqb _ "true").
    - apply bind_ok in H5. destruct H5 as [c0 [Hf H5]].
      eapply agree_trans; [apply flask_section_agree; exact Hf|].
      eapply set_in_section_agree; [|exact H5].
      apply overridden_keys_are_not_validated. simpl. auto 6.
    - inversion H5. left. reflexivity. }
  eapply agree_trans; [exact A1|].
  eapply agree_trans; [exact A2|].
  eapply agree_trans; [exact A3|].
  eapply agree_trans; [exact A4 | exact A5].
Qed.

Lemma py_in_agree (d d' : list (string * value)) (s : string) :
  section_agrees (dict_get d s) (dict_get d' s) ->
  py_in s (VDict d') = py_in s (VDict d).
Proof.
  unfold py_in. intros [E|(sd & sd' & E1 & E2 & _)].
  - rewrite E. reflexivity.
  - rewrite E1, E2. reflexivity.
Qed.

Lemma sections_loop_agree (d d' : list (string * value))
  (sections : list string) :
  (forall s, In s sections -> section_agrees (dict_get d s) (dict_get d' s)) ->
  sections_loop sections (VDict d') = sections_loop sections (VDict d).
Proof.
  induction sections as [|section rest IH]; intros H; [reflexivity|].
  cbn [sections_loop]. rewrite (@py_in_agree d d' section).
  - apply bind_ext. intros present. destruct (negb present); [reflexivity|].
    apply IH. intros s Hs. apply H. right. exact Hs.
  - apply H. left. reflexivity.
Qed.

Lemma github_keys_loop_agree (sd sd' : list (string * value))
  (keys : list string) :
  (forall k, In k keys -> dict_get sd' k = dict_get sd k) ->
  github_keys_loop keys (VDict sd') = github_keys_loop keys (VDict sd).
Proof.
  induction keys as [|key rest IH]; intros H; [reflexivity|].
  cbn [github_keys_loop py_get]. rewrite (H key (or_introl eq_refl)).
  apply bind_ext. intros v. destruct (negb (truthy v)); [reflexivity|].
  apply IH. intros k Hk. apply H. right. exact Hk.
Qed.

Lemma github_stage_agree (d d' : list (string * value))
  (K K' : unit -> result unit) :
  section_agrees (dict_get d "github") (dict_get d' "github") ->
  (forall u, K' u = K u) ->
  bind (getitem (VDict d') "github")
    (fun g => bind (github_keys_loop required_github_keys g) K') =
  bind (getitem (VDict d) "github")
    (fun g => bind (github_keys_loop required_github_keys g) K).
Proof.
  intros [E|(sd & sd' & E1 & E2 & Hk)] HK; cbn [getitem].
  - rewrite E. destruct (dict_get d "github"); cbn [bind]; [|reflexivity].
    apply bind_ext. exact HK.
  - rewrite E1, E2. cbn [bind].
    rewrite (@github_keys_loop_agree sd sd' required_github_keys).
    + apply bind_ext. exact HK.
    + intros k Hin. apply Hk. unfold validated_keys. apply in_or_app.
      left. exact Hin.
Qed.

Lemma stage_agree (d d' : list (string * value)) (s k : string)
  (default : value) (K K' : value -> result unit) :
  section_agrees (dict_get d s) (dict_get d' s) ->
  In k validated_keys ->
  (forall v, K' v = K v) ->
  bind (getitem (VDict d') s) (fun x => bind (py_get x k default) K') =
  bind (getitem (VDict d) s) (fun x => bind (py_get x k default) K).
Proof.
  intros [E|(sd & sd' & E1 & E2 & Hk)] Hin HK; cbn [getitem].
  - rewrite E. destruct (dict_get d s); cbn [bind]; [|reflexivity].
    apply bind_ext. exact HK.
  - rewrite E1, E2. cbn [bind py_get]. rewrite (Hk k Hin). apply HK.
Qed.

Ltac is_validated :=
  unfold validated_keys, required_github_keys; simpl;
  repeat first [left; reflexivity | right].

Ltac is_required :=
  unfold required_sections; simpl;
  repeat first [left; reflexivity | right].

Lemma validate_agree (c c' : value) :
  agree c c' -> _validate_config c' = _validate_config c.
Proof.
  intros [->|(d & d' & -> & -> & H)]; [reflexivity|].
  unfold _validate_config.
  rewrite (@sections_loop_agree d d' required_sections H).
  apply bind_ext. intros _.
  apply github_stage_agree; [apply H; is_required|]. intros _.
  apply stage_agree; [apply H; is_required | is_validated |].
  intros interval. apply bind_ext. intros bad.
  destruct bad; [reflexivity|].
  apply stage_agree; [apply H; is_required | is_validated |].
  intros _smtp_server.
  apply stage_agree; [apply H; is_required | is_validated |].
  intros formats. destruct (negb (truthy formats)); [reflexivity|].
  apply stage_agree; [apply H; is_required | is_validated |].
  intros max_size. reflexivity.
Qed.

(** The environment a test run may have. *)
Definition test_environment (name : string) : option string :=
  if String.eqb name "GITHUB_TOKEN" then Some "ghp_0123456789"
  else if String.eqb name "EMAIL_PASSWORD" then Some ""
  else if String.eqb name "FLASK_ENV" then Some "production"
  else if String.eqb name "FLASK_DEBUG" then Some "True"
  else None.

(** The overrides from the environment do not change the verdict of the
    validation: the configuration with the overrides passes exactly when
    the configuration of the file passes, and fails with the same error.
    No variable of the environment repairs or spoils a configuration. *)
Theorem environment_overrides_keep_the_verdict :
  forall (getenv : string -> option string) (c c' : value),
    _apply_env_overrides getenv c = Ok c' ->
    _validate_config c' = _validate_config c.
Proof.
  intros getenv c c' H. apply validate_agree.
  apply (overrides_agree getenv). exact H.
Qed.

Lemma environment_overrides_keep_the_verdict_witness :
  exists c',
    _apply_env_overrides test_environment minimal_config = Ok c'
    /\ c' <> minimal_config
    /\ _validate_config c' = _validate_config minimal_config.
Proof.
  eexists. split; [vm_compute; reflexivity|].
  split; [intros H; discriminate H|].
  apply (@environment_overrides_keep_the_verdict test_environment).
  vm_compute. reflexivity.
Defined.

(** ** The overrides and the values *)











(** ** Building and reloading *)








(** ** The section logging *)

(** The validation asks only that the section logging is there.  With a
    validated configuration [get_log_config] raises no KeyError: when the
    section is a dictionary it makes the directory of the log file and
    gives the five settings, each one from the section or else its default;
    when the section is anything else it raises AttributeError and makes no
    directory. *)
Theorem logging_of_a_validated_configuration :
  forall (c : value) (mkdir : value -> result unit),
    _validate_config c = Ok tt ->
    exists lv,
      getitem c "logging" = Ok lv
      /\ ((forall ld, lv <> VDict ld) ->
          get_log_config c mkdir = Err AttributeError
          /\ get_log_config c mkdir =
             get_log_config c (fun _ => Err (OtherError "mkdir")))
      /\ (forall ld, lv = VDict ld ->
          let setting k default :=
            match dict_get ld k with Some v => v | None => default end in
          let log_file := setting "log_file" (VStr "logs/math_solver.log") in
          (forall e, mkdir log_file = Err e -> get_log_config c mkdir = Err e)
          /\ (mkdir log_file = Ok tt ->
              exists cfg,
                get_log_config c mkdir = Ok (VDict cfg)
                /\ map fst cfg =
                     ["level"; "file"; "rotation"; "retention"; "format"]
                /\ dict_get cfg "level" = Some (setting "level" (VStr "INFO"))
                /\ dict_get cfg "file" = Some log_file
                /\ dict_get cfg "rotation" =
                     Some (setting "max_file_size" (VStr "10MB"))
                /\ dict_get cfg "retention" =
                     Some (setting "backup_count" (VNum 5)))).
Proof.
  intros c mkdir H. apply validate_inv in H.
  destruct H as (d & g & sch & em & m & sec & -> & Hreq & _).
  assert (Hl : dict_get d "logging" <> None).
  { apply Hreq. unfold required_sections. simpl. auto 6. }
  destruct (dict_get d "logging") as [lv|] eqn:El; [|contradiction].
  exists lv. split; [cbn [getitem]; rewrite El; reflexivity|].
  split.
  - intros Hnd. unfold get_log_config, get_section. cbn [py_in getitem].
    rewrite El. cbn [bind negb].
    destruct lv as [| | | | |ld]; cbn [copy bind py_get];
      try (split; reflexivity).
    exfalso. apply (Hnd ld). reflexivity.
  - intros ld -> setting log_file.
    unfold get_log_config, get_section. cbn [py_in getitem].
    rewrite El. cbn [bind negb copy py_get].
    split.
    + intros e He. unfold log_file, setting in He. cbv beta in He.
      rewrite He. reflexivity.
    + intros Hm. unfold log_file, setting in Hm. cbv beta in Hm.
      rewrite Hm. cbn [bind]. eexists.
      split; [reflexivity|]. split; [reflexivity|].
      split; [reflexivity|]. split; [reflexivity|].
      split; reflexivity.
Qed.

Lemma logging_of_a_validated_configuration_witness :
  _validate_config minimal_config = Ok tt
  /\ get_log_config minimal_config (fun _ => Ok tt) = Err AttributeError.
Proof.
  split; [vm_compute; reflexivity|].
  destruct (@logging_of_a_validated_configuration minimal_config
              (fun _ => Ok tt)) as (lv & Hlv & Hnd & _).
  - vm_compute. reflexivity.
  - apply Hnd. intros ld E. rewrite E in Hlv. vm_compute in Hlv.
    discriminate Hlv.
Defined.
